(** * mongotools: backup and restore of document collections

    A shallow embedding of [backup_n_restore/__init__.py]: the chunked
    exporter [get_collection_data], the checkpoint helpers, the dispatch in
    [backup_collection] and [backup], [check_missing_collections] and
    [restore_collection].

    Conventions.
    - A Python [str] is a [string] whose characters are the code points
      below 256.
    - The bucket is a finite map from object keys to blob bodies.
    - The collaborators the module does not define (the BSON serializer, the
      CPython object sizer, the document store) are parameters of the
      section [Engine]; a small in-memory instance of each is given in
      [Module Mem] and is used to run the code on concrete inputs.
    - Logging calls have no effect on the results and are left out. *)

From Stdlib Require Import ZArith Lia Ascii DecimalString DecimalNat DecimalFacts.
From stdpp Require Import base gmap strings list fin_maps.

Local Open Scope Z_scope.

(** ** Python string primitives *)

Module Py.

(** [str.isspace] on one code point below 256. *)
Definition is_space (c : ascii) : bool :=
  let n := nat_of_ascii c in
  ((9 <=? n) && (n <=? 13) || (28 <=? n) && (n <=? 32)
   || (n =? 133) || (n =? 160))%nat.

Fixpoint lstrip (s : string) : string :=
  match s with
  | EmptyString => EmptyString
  | String c r => if is_space c then lstrip r else s
  end.

Fixpoint rstrip (s : string) : string :=
  match s with
  | EmptyString => EmptyString
  | String c r =>
      match rstrip r with
      | EmptyString => if is_space c then EmptyString else String c EmptyString
      | r' => String c r'
      end
  end.

(** [s.strip()] *)
Definition strip (s : string) : string := rstrip (lstrip s).

(** [str.lower] on one code point below 256. *)
Definition lower_char (c : ascii) : ascii :=
  let n := nat_of_ascii c in
  if ((65 <=? n) && (n <=? 90)
      || (192 <=? n) && (n <=? 222) && negb (n =? 215))%nat
  then ascii_of_nat (n + 32) else c.

(** [s.lower()] *)
Fixpoint lower (s : string) : string :=
  match s with
  | EmptyString => EmptyString
  | String c r => String (lower_char c) (lower r)
  end.

(** [s.split(sep)] for a one-character separator; the result is never
    empty. *)
Fixpoint split (sep : ascii) (s : string) : list string :=
  match s with
  | EmptyString => [EmptyString]
  | String c r =>
      if Ascii.eqb c sep then EmptyString :: split sep r
      else match split sep r with
           | [] => [String c EmptyString]
           | h :: t => String c h :: t
           end
  end.

(** [x in xs] for a list of strings. *)
Fixpoint mem (x : string) (xs : list string) : bool :=
  match xs with
  | [] => false
  | y :: ys => if String.eqb x y then true else mem x ys
  end.

(** [str(n)] for a natural number. *)
Definition str_of_nat (n : nat) : string :=
  NilEmpty.string_of_uint (Nat.to_uint n).

Fixpoint zeros (n : nat) : string :=
  match n with
  | O => EmptyString
  | S k => String "0" (zeros k)
  end.

(** [f'{n:06d}'] *)
Definition fmt_06d (n : nat) : string :=
  let s := str_of_nat n in
  zeros (6 - String.length s) +:+ s.

Definition squote : ascii := "039".
Definition dquote : ascii := "034".
Definition backslash : ascii := "092".

Fixpoint contains (c : ascii) (s : string) : bool :=
  match s with
  | EmptyString => false
  | String d r => if Ascii.eqb c d then true else contains c r
  end.

Definition hex_digit (n : nat) : ascii :=
  if (n <? 10)%nat then ascii_of_nat (48 + n) else ascii_of_nat (87 + n).

(** One character of [repr(s)], given the quote that [repr] chose. *)
Definition repr_char (q c : ascii) : string :=
  let n := nat_of_ascii c in
  if Ascii.eqb c backslash then String backslash (String backslash EmptyString)
  else if Ascii.eqb c q then String backslash (String q EmptyString)
  else if (n =? 9)%nat then String backslash "t"
  else if (n =? 10)%nat then String backslash "n"
  else if (n =? 13)%nat then String backslash "r"
  else if ((n <? 32) || (127 <=? n) && (n <=? 160) || (n =? 173))%nat
  then String backslash
         (String "x" (String (hex_digit (n / 16))
                        (String (hex_digit (n mod 16)) EmptyString)))
  else String c EmptyString.

Fixpoint repr_body (q : ascii) (s : string) : string :=
  match s with
  | EmptyString => EmptyString
  | String c r => repr_char q c +:+ repr_body q r
  end.

(** [repr(s)] of a string: single quotes unless the string holds a single
    quote and no double quote. *)
Definition repr_str (s : string) : string :=
  let q := if contains squote s && negb (contains dquote s)
           then dquote else squote in
  String q (repr_body q s +:+ String q EmptyString).

Fixpoint join (sep : string) (xs : list string) : string :=
  match xs with
  | [] => EmptyString
  | [x] => x
  | x :: rest => x +:+ sep +:+ join sep rest
  end.

(** [repr(xs)] of a list of strings, as an f-string renders it. *)
Definition repr_list (xs : list string) : string :=
  "[" +:+ join ", " (map repr_str xs) +:+ "]".

End Py.

(** ** Documents, exceptions, queries *)

(** The values a document can hold, and what [loads] can return. *)
#[warnings="-register-all"]
Inductive value : Type :=
| VNull
| VBool (b : bool)
| VInt (n : Z)
| VStr (s : string)
| VArr (items : list value)
| VDoc (fields : list (string * value)).

(** A document is a [dict] from field names to values. *)
Abbreviation document := (list (string * value)).

(** [doc.get(key_field)]: the field's value, [None] when it is missing. *)
Fixpoint doc_get (key_field : string) (doc : document) : value :=
  match doc with
  | [] => VNull
  | (k, v) :: rest => if String.eqb k key_field then v else doc_get key_field rest
  end.

(** The field is present in the document. *)
Fixpoint has_field (key_field : string) (doc : document) : bool :=
  match doc with
  | [] => false
  | (k, _) :: rest => if String.eqb k key_field then true else has_field key_field rest
  end.

(** The exceptions the module raises or lets through.
    [ValueError] is the unsupported-backup-type error,
    [NotImplementedError] the missing-collection-configuration error,
    [NoSuchKey] the object store's error for an absent blob. *)
Inductive exn : Type :=
| ValueError (msg : string)
| NotImplementedError (msg : string)
| NoSuchKey (file_key : string)
| DecodeError
| TypeError
| WriteError.

Inductive outcome (A : Type) : Type :=
| Ok (a : A)
| Raise (e : exn).
Arguments Ok {A} a.
Arguments Raise {A} e.

(** The two query dicts the module builds: [{}] and
    [{key_field: {'$gt': bound}}]. *)
Inductive query : Type :=
| QAll
| QGt (key_field : string) (bound : value).

(** The bucket: object key to blob body. *)
Abbreviation bucket := (gmap string string).

(** One triple yielded by the exporter: [(data, last_key, count)]. *)
Abbreviation chunk := (string * option string * nat)%type.

Definition DB_BACKUP_CONF_KEY : string := "DB_BACKUP_CONF".
Definition MONGO_DB_ID_FIELD : string := "_id".
Definition FULL_BACKUP : string := "full".
Definition INCREMENTAL_BACKUP : string := "incremental".
Definition LAST_ID_FILE_NAME : string := "last_key.txt".

Definition put_s3_data (file_key data : string) (s3 : bucket) : bucket :=
  <[file_key := data]> s3.

Definition get_s3_data (file_key : string) (s3 : bucket) : outcome string :=
  match s3 !! file_key with
  | Some body => Ok body
  | None => Raise (NoSuchKey file_key)
  end.

Definition get_last_saved_key (folder : string) (s3 : bucket) : outcome string :=
  get_s3_data (folder +:+ "/" +:+ LAST_ID_FILE_NAME) s3.

Definition save_last_id (folder last_id prefix : string) (s3 : bucket) : bucket :=
  put_s3_data (folder +:+ "/" +:+ prefix +:+ LAST_ID_FILE_NAME) last_id s3.

Definition get_s3_file_key (file folder : string) : string :=
  folder +:+ "/" +:+ file +:+ ".bak".

(** [last_key in ['', None, 'None']] *)
Definition in_guard_list (last_key : option string) : bool :=
  match last_key with
  | None => true
  | Some s => String.eqb s "" || String.eqb s "None"
  end.

(** What [for doc in documents] iterates over. *)
Definition iter_values (v : value) : outcome (list value) :=
  match v with
  | VArr items => Ok items
  | VDoc fields => Ok (map (fun kv => VStr (fst kv)) fields)
  | VStr s => Ok (map (fun c => VStr (String c EmptyString)) (String.list_ascii_of_string s))
  | _ => Raise TypeError
  end.

(** ** An in-memory instance of the collaborators

    [Mem.dumps] and [Mem.loads] follow the JSON text that
    [bson.json_util] produces and accepts for null, booleans, integers,
    strings without escapes, arrays and documents; [Mem.getsizeof] is
    CPython's size of a one-byte-per-character [str]; the document store
    keeps each collection as the list of its documents in cursor order. *)

Module Mem.

Definition quote (s : string) : string :=
  String Py.dquote (s +:+ String Py.dquote EmptyString).

Definition str_of_Z (n : Z) : string :=
  match n with
  | Zneg p => String "-" (Py.str_of_nat (Pos.to_nat p))
  | _ => Py.str_of_nat (Z.to_nat n)
  end.

Fixpoint dumps (v : value) : string :=
  match v with
  | VNull => "null"
  | VBool true => "true"
  | VBool false => "false"
  | VInt n => str_of_Z n
  | VStr s => quote s
  | VArr items =>
      "[" +:+ Py.join ", " (map dumps items) +:+ "]"
  | VDoc fields =>
      "{" +:+ Py.join ", "
                (map (fun kv => quote (fst kv) +:+ ": " +:+ dumps (snd kv)) fields)
          +:+ "}"
  end.

Fixpoint skip_ws (s : string) : string :=
  match s with
  | String c r => if Py.is_space c then skip_ws r else s
  | EmptyString => EmptyString
  end.

Definition is_digit (c : ascii) : bool :=
  let n := nat_of_ascii c in ((48 <=? n) && (n <=? 57))%nat.

(** Reads the digits at the head of [s]: their value and the rest. *)
Fixpoint read_digits (acc : Z) (s : string) : Z * string :=
  match s with
  | String c r =>
      if is_digit c
      then read_digits (10 * acc + Z.of_nat (nat_of_ascii c - 48)) r
      else (acc, s)
  | EmptyString => (acc, EmptyString)
  end.

(** Reads a string body up to the closing quote; escapes are refused. *)
Fixpoint read_string (s : string) : option (string * string) :=
  match s with
  | EmptyString => None
  | String c r =>
      if Ascii.eqb c Py.dquote then Some (EmptyString, r)
      else if Ascii.eqb c Py.backslash then None
      else match read_string r with
           | Some (body, rest) => Some (String c body, rest)
           | None => None
           end
  end.

Definition eat (lit s : string) : option string :=
  if String.prefix lit s
  then Some (String.substring (String.length lit)
               (String.length s - String.length lit) s)
  else None.

Section Parser.
Variable parse_value : string -> option (value * string).

(** The items of an array after its first item: [, item]* followed by
    the closing bracket. *)
Fixpoint parse_items (fuel : nat) (s : string) : option (list value * string) :=
  match fuel with
  | O => None
  | S f =>
      match skip_ws s with
      | String "]" r => Some ([], r)
      | String "," r =>
          match parse_value r with
          | Some (v, r1) =>
              match parse_items f r1 with
              | Some (vs, r2) => Some (v :: vs, r2)
              | None => None
              end
          | None => None
          end
      | _ => None
      end
  end.

Definition parse_field (s : string) : option (string * value * string) :=
  match skip_ws s with
  | String c r =>
      if Ascii.eqb c Py.dquote then
        match read_string r with
        | Some (k, r1) =>
            match skip_ws r1 with
            | String ":" r2 =>
                match parse_value r2 with
                | Some (v, r3) => Some (k, v, r3)
                | None => None
                end
            | _ => None
            end
        | None => None
        end
      else None
  | EmptyString => None
  end.

Fixpoint parse_fields (fuel : nat) (s : string)
  : option (list (string * value) * string) :=
  match fuel with
  | O => None
  | S f =>
      match skip_ws s with
      | String "}" r => Some ([], r)
      | String "," r =>
          match parse_field r with
          | Some (k, v, r1) =>
              match parse_fields f r1 with
              | Some (kvs, r2) => Some ((k, v) :: kvs, r2)
              | None => None
              end
          | None => None
          end
      | _ => None
      end
  end.
End Parser.

Fixpoint parse_value (fuel : nat) (s : string) : option (value * string) :=
  match fuel with
  | O => None
  | S f =>
      match skip_ws s with
      | EmptyString => None
      | String c r =>
          if Ascii.eqb c "[" then
            match skip_ws r with
            | String "]" r1 => Some (VArr [], r1)
            | _ =>
                match parse_value f r with
                | Some (v, r1) =>
                    match parse_items (parse_value f) f r1 with
                    | Some (vs, r2) => Some (VArr (v :: vs), r2)
                    | None => None
                    end
                | None => None
                end
            end
          else if Ascii.eqb c "{" then
            match skip_ws r with
            | String "}" r1 => Some (VDoc [], r1)
            | _ =>
                match parse_field (parse_value f) r with
                | Some (k, v, r1) =>
                    match parse_fields (parse_value f) f r1 with
                    | Some (kvs, r2) => Some (VDoc ((k, v) :: kvs), r2)
                    | None => None
                    end
                | None => None
                end
            end
          else if Ascii.eqb c Py.dquote then
            match read_string r with
            | Some (body, r1) => Some (VStr body, r1)
            | None => None
            end
          else if Ascii.eqb c "-" then
            match r with
            | String d _ =>
                if is_digit d
                then let '(n, r1) := read_digits 0 r in Some (VInt (- n), r1)
                else None
            | EmptyString => None
            end
          else if is_digit c then
            let '(n, r1) := read_digits 0 (String c r) in Some (VInt n, r1)
          else
            match eat "null" (String c r), eat "true" (String c r),
                  eat "false" (String c r) with
            | Some r1, _, _ => Some (VNull, r1)
            | _, Some r1, _ => Some (VBool true, r1)
            | _, _, Some r1 => Some (VBool false, r1)
            | _, _, _ => None
            end
      end
  end.

(** [loads(text)]: [None] stands for the decoder raising. *)
Definition loads (text : string) : option value :=
  match parse_value (S (String.length text)) text with
  | Some (v, rest) =>
      match skip_ws rest with
      | EmptyString => Some v
      | _ => None
      end
  | None => None
  end.

(** [sys.getsizeof] of a [str] of code points below 128 on 64-bit CPython
    3.8 to 3.11: a 49-byte header and one byte per character. *)
Definition getsizeof (s : string) : Z := 49 + Z.of_nat (String.length s).

(** The store's [$gt]: values of one type compare, others never match. *)
Definition gt (v bound : value) : bool :=
  match v, bound with
  | VInt a, VInt b => b <? a
  | VStr a, VStr b => String.ltb b a
  | _, _ => false
  end.

Definition matches (q : query) (doc : document) : bool :=
  match q with
  | QAll => true
  | QGt key_field bound => gt (doc_get key_field doc) bound
  end.

(** The database: collection names with their documents. *)
Abbreviation db := (list (string * list document)).

Fixpoint docs_of (name : string) (d : db) : list document :=
  match d with
  | [] => []
  | (n, ds) :: rest => if String.eqb n name then ds else docs_of name rest
  end.

Definition list_collection_names (d : db) : list string := map fst d.

Definition find (d : db) (name : string) (q : query) : list document :=
  List.filter (matches q) (docs_of name d).

Fixpoint add_doc (name : string) (doc : document) (d : db) : db :=
  match d with
  | [] => [(name, [doc])]
  | (n, ds) :: rest =>
      if String.eqb n name then (n, ds ++ [doc]) :: rest
      else (n, ds) :: add_doc name doc rest
  end.

(** [insert_one]: only a document can be inserted. *)
Definition insert_one (d : db) (name : string) (v : value) : outcome db :=
  match v with
  | VDoc doc => Ok (add_doc name doc d)
  | _ => Raise TypeError
  end.

End Mem.

(** ** Sample stores *)

Module Sample.

Definition doc_id (n : Z) : document := [("_id", VInt n)].

(** Three users; with a limit of 65 bytes the exporter closes the first
    chunk after the second document. *)
Definition users_db : Mem.db :=
  [("users", [doc_id 1; doc_id 2; doc_id 3])].

(** Two sessions that the cursor returns with the larger key first, and
    the checkpoint of an earlier run. *)
Definition sessions_db : Mem.db :=
  [("sessions", [doc_id 5; doc_id 3])].

Definition sessions_s3 : bucket := {[ "sessions/last_key.txt" := "1" ]}.

(** The checkpoint after a run that exported every session. *)
Definition sessions_done_s3 : bucket := {[ "sessions/last_key.txt" := "5" ]}.

(** A collection whose last document has no [_id]. *)
Definition notes_db : Mem.db :=
  [("notes", [doc_id 1; [("text", VStr "hi")]])].

(** A backup blob holding two documents. *)
Definition backup_s3 : bucket :=
  {[ "2024/users.bak" := Mem.dumps (VArr [VDoc (doc_id 1); VDoc (doc_id 2)]) ]}.

(** A backup blob whose second element is not a document. *)
Definition broken_s3 : bucket :=
  {[ "2024/users.bak" :=
       Mem.dumps (VArr [VDoc (doc_id 1); VInt 7; VDoc (doc_id 2)]) ]}.

End Sample.

(** ** The engine *)

Section Engine.

Set Default Proof Using "Type".

(** [bson.json_util.dumps] and [loads] ([None]: the decoder raises). *)
Variable dumps : value -> string.
Variable loads : string -> option value.
(** [sys.getsizeof] and the configured bulk size limit. *)
Variable getsizeof : string -> Z.
Variable DB_BACKUP_BULK_SIZE_LIMIT : Z.
(** The document store behind [APP_DB]. *)
Variable db : Type.
Variable list_collection_names : db -> list string.
Variable find : db -> string -> query -> list document.
Variable insert_one : db -> string -> value -> outcome db.

Definition check_missing_collections
    (conf : list (string * string)) (APP_DB : db) : outcome unit :=
  let db_collections := list_collection_names APP_DB in
  let existing_in_conf := map fst conf in
  let missing_collections :=
    List.filter (fun x => negb (Py.mem x existing_in_conf)) db_collections in
  if (0 <? length missing_collections)%nat
  then Raise (NotImplementedError
                ("Add the following collections to " +:+ DB_BACKUP_CONF_KEY
                 +:+ " env-var: " +:+ Py.repr_list missing_collections))
  else Ok tt.

(** The loop of [get_collection_data] over the remaining documents of the
    cursor, from the state [(count, data, is_first, last_key)]; the result
    lists the triples in the order they are yielded. *)
Fixpoint export_loop (key_field : string) (docs : list document)
    (count : nat) (data : string) (is_first : bool)
    (last_key : option string) : list chunk :=
  match docs with
  | [] => [(data +:+ "]", last_key, count)]
  | doc :: rest =>
      let data := if is_first then data else data +:+ ", " in
      let data := data +:+ dumps (VDoc doc) in
      let last_key := Some (dumps (doc_get key_field doc)) in
      let count := S count in
      if DB_BACKUP_BULK_SIZE_LIMIT <? getsizeof data
      then (data +:+ "]", last_key, count)
             :: export_loop key_field rest count "[" true None
      else export_loop key_field rest count data false last_key
  end.

Definition get_collection_data (collection_name : string) (q : query)
    (key_field : string) (APP_DB : db) : list chunk :=
  export_loop key_field (find APP_DB collection_name q) 0%nat "[" true None.

(** The body of the [for] loop of [backup_collection] for one triple,
    on the state [(s3, file_count)].  The test
    [last_key not in ['', None, 'None']] is [in_guard_list]; the match on
    [last_key] only names the string handed to [save_last_id], and its
    [None] branch is the case where the test holds for [None]. *)
Definition save_chunk (file_key folder file_prefix : string)
    (st : bucket * nat) (c : chunk) : bucket * nat :=
  let '(s3, file_count) := st in
  let '(data, last_key, _) := c in
  let file_count := S file_count in
  let s3 := put_s3_data (file_key +:+ Py.fmt_06d file_count) data s3 in
  let s3 :=
    match last_key with
    | Some last_id =>
        if in_guard_list last_key then s3
        else save_last_id folder last_id file_prefix s3
    | None => s3
    end in
  (s3, file_count).

Definition save_chunks (file_key folder file_prefix : string)
    (chunks : list chunk) (s3 : bucket) : bucket * nat :=
  fold_left (save_chunk file_key folder file_prefix) chunks (s3, 0%nat).

(** The query of an incremental backup: the [try] block, whose failures
    (absent checkpoint, undecodable checkpoint) leave the query empty. *)
Definition incremental_query (folder key_field : string) (s3 : bucket) : query :=
  match get_last_saved_key folder s3 with
  | Ok last_saved_key =>
      match loads last_saved_key with
      | Some bound => QGt key_field bound
      | None => QAll
      end
  | Raise _ => QAll
  end.

Definition backup_collection
    (collection_name backup_type backup_id key_field : string)
    (APP_DB : db) (s3 : bucket) : bucket * outcome nat :=
  if String.eqb backup_type FULL_BACKUP then
    let folder := backup_id in
    let file_prefix := collection_name +:+ "-" in
    let file_key := get_s3_file_key collection_name folder in
    let '(s3, file_count) :=
      save_chunks file_key folder file_prefix
        (get_collection_data collection_name QAll key_field APP_DB) s3 in
    (s3, Ok file_count)
  else if String.eqb backup_type INCREMENTAL_BACKUP then
    let folder := collection_name in
    let file_prefix := EmptyString in
    let q := incremental_query folder key_field s3 in
    let file_key :=
      get_s3_file_key (collection_name +:+ "-" +:+ backup_id) folder in
    let '(s3, file_count) :=
      save_chunks file_key folder file_prefix
        (get_collection_data collection_name q key_field APP_DB) s3 in
    (s3, Ok file_count)
  else
    (s3, Raise (ValueError
                  ("Backup type " +:+ backup_type +:+ " is not supported."))).

(** The first hyphen-separated token of a mode string, trimmed and
    lowercased. *)
Definition mode_token (backup_conf : string) : string :=
  Py.lower (Py.strip (hd EmptyString (Py.split "-" (Py.strip backup_conf)))).

(** The body of the [for] loop of [backup] for one configuration item. *)
Definition backup_item (name backup_conf backup_id : string)
    (APP_DB : db) (s3 : bucket) : bucket * outcome unit :=
  let backup_conf_tokens := Py.split "-" (Py.strip backup_conf) in
  let backup_type :=
    Py.lower (Py.strip (hd EmptyString backup_conf_tokens)) in
  if Py.mem backup_type ["f"; FULL_BACKUP] then
    match backup_collection name FULL_BACKUP backup_id MONGO_DB_ID_FIELD
            APP_DB s3 with
    | (s3, Ok _) => (s3, Ok tt)
    | (s3, Raise e) => (s3, Raise e)
    end
  else if Py.mem backup_type ["i"; INCREMENTAL_BACKUP] then
    let key_field :=
      if (length backup_conf_tokens =? 1)%nat then MONGO_DB_ID_FIELD
      else Py.strip (nth 1 backup_conf_tokens EmptyString) in
    match backup_collection name INCREMENTAL_BACKUP backup_id key_field
            APP_DB s3 with
    | (s3, Ok _) => (s3, Ok tt)
    | (s3, Raise e) => (s3, Raise e)
    end
  else (s3, Ok tt).

(** [backup(conf)]; [backup_id] is the time stamp taken on entry. *)
Fixpoint backup (conf : list (string * string)) (backup_id : string)
    (APP_DB : db) (s3 : bucket) : bucket * outcome unit :=
  match conf with
  | [] => (s3, Ok tt)
  | (name, backup_conf) :: rest =>
      match backup_item name backup_conf backup_id APP_DB s3 with
      | (s3, Ok _) => backup rest backup_id APP_DB s3
      | (s3, Raise e) => (s3, Raise e)
      end
  end.

(** The insertion loop of [restore_collection]. *)
Fixpoint insert_each (target : string) (documents : list value)
    (count : nat) (APP_DB : db) : db * outcome nat :=
  match documents with
  | [] => (APP_DB, Ok count)
  | doc :: rest =>
      match insert_one APP_DB target doc with
      | Ok APP_DB' => insert_each target rest (S count) APP_DB'
      | Raise e => (APP_DB, Raise e)
      end
  end.

Definition restore_collection (collection_name folder : string)
    (s3 : bucket) (APP_DB : db) : db * outcome nat :=
  match get_s3_data (folder +:+ "/" +:+ collection_name +:+ ".bak") s3 with
  | Raise e => (APP_DB, Raise e)
  | Ok data =>
      match loads data with
      | None => (APP_DB, Raise DecodeError)
      | Some documents =>
          match iter_values documents with
          | Raise e => (APP_DB, Raise e)
          | Ok docs =>
              insert_each (collection_name +:+ "_restored") docs 0%nat APP_DB
          end
      end
  end.

(** *** The exporter described by the groups of documents it forms *)

(** The text of an array still open: the bracket and the documents
    serialized so far. *)
Definition open_array (g : list document) : string :=
  "[" +:+ Py.join ", " (map (fun doc => dumps (VDoc doc)) g).

Definition render (g : list document) : string := open_array g +:+ "]".

(** The serialized key of the last document of a group. *)
Definition group_key (key_field : string) (g : list document) : option string :=
  match last g with
  | Some doc => Some (dumps (doc_get key_field doc))
  | None => None
  end.

(** The groups the size test cuts the cursor into, [cur] being the
    documents of the array that is open. *)
Fixpoint split_groups (docs cur : list document) : list (list document) :=
  match docs with
  | [] => [cur]
  | doc :: rest =>
      if DB_BACKUP_BULK_SIZE_LIMIT <? getsizeof (open_array (cur ++ [doc]))
      then (cur ++ [doc]) :: split_groups rest []
      else split_groups rest (cur ++ [doc])
  end.

(** The triples of a list of groups; [seen] documents were counted
    before the first group. *)
Fixpoint chunks_of (key_field : string) (seen : nat)
    (groups : list (list document)) : list chunk :=
  match groups with
  | [] => []
  | g :: gs =>
      (render g, group_key key_field g, (seen + length g)%nat)
        :: chunks_of key_field (seen + length g)%nat gs
  end.

Definition is_nil {A : Type} (l : list A) : bool :=
  match l with [] => true | _ => false end.

Definition last_char (s : string) : option ascii :=
  last (String.list_ascii_of_string s).

(** The object key of the checkpoint and of the [n]-th chunk. *)
Definition checkpoint_key (folder file_prefix : string) : string :=
  folder +:+ "/" +:+ file_prefix +:+ LAST_ID_FILE_NAME.

Definition chunk_key (file_key : string) (n : nat) : string :=
  file_key +:+ Py.fmt_06d n.

Definition chunk_data (c : chunk) : string := c.1.1.
Definition chunk_last_key (c : chunk) : option string := c.1.2.
Definition chunk_count (c : chunk) : nat := c.2.

(** The checkpoint left by the groups of a run: the key of the last
    group whose key passes the guard, [init] when there is none. *)
Definition final_checkpoint (key_field : string)
    (groups : list (list document)) (init : option string) : option string :=
  fold_left
    (fun acc g =>
       if in_guard_list (group_key key_field g) then acc
       else group_key key_field g)
    groups init.

(** Inserting documents one after the other, stopping at the first
    failure. *)
Fixpoint insert_seq (target : string) (documents : list value)
    (APP_DB : db) : outcome db :=
  match documents with
  | [] => Ok APP_DB
  | doc :: rest =>
      match insert_one APP_DB target doc with
      | Ok APP_DB' => insert_seq target rest APP_DB'
      | Raise e => Raise e
      end
  end.

(** The status the script [db_backup.py] ends with. *)
Inductive status : Type := OK | WARNING | ERROR.

(** The body of [db_backup.py]: [get_conf] is the outcome of reading the
    configuration, a [dict] from collection names to mode strings.  A
    [NotImplementedError] of the coverage check is downgraded to a warning
    and the backup still runs; any other exception ends the run. *)
Definition db_backup_main (get_conf : outcome (list (string * string)))
    (backup_id : string) (APP_DB : db) (s3 : bucket) : bucket * status :=
  match get_conf with
  | Raise _ => (s3, ERROR)
  | Ok conf =>
      let run (st : status) :=
        match backup conf backup_id APP_DB s3 with
        | (s3', Ok _) => (s3', st)
        | (s3', Raise _) => (s3', ERROR)
        end in
      match check_missing_collections conf APP_DB with
      | Ok _ => run OK
      | Raise (NotImplementedError _) => run WARNING
      | Raise _ => (s3, ERROR)
      end
  end.

(** The object key [restore_collection] reads. *)
Definition restore_key (collection_name folder : string) : string :=
  folder +:+ "/" +:+ collection_name +:+ ".bak".

(** The store's comparison behind [$gt], and what [find] promises for
    such a filter: the documents returned belong to the collection and
    satisfy it. *)
Variable gt : value -> value -> bool.
Hypothesis find_sound : forall APP_DB name key_field bound doc,
  In doc (find APP_DB name (QGt key_field bound)) ->
  In doc (find APP_DB name QAll) /\ gt (doc_get key_field doc) bound = true.

(** *** Strings *)

Lemma str_app_cons c a b : String c a +:+ b = String c (a +:+ b).
Proof. reflexivity. Qed.

Lemma str_app_nil_r a : a +:+ EmptyString = a.
Proof.
  induction a as [|c a IH]; [reflexivity|]. rewrite str_app_cons. by f_equal.
Qed.

Lemma str_app_assoc a b c : (a +:+ b) +:+ c = a +:+ (b +:+ c).
Proof.
  induction a as [|x a IH]; [reflexivity|].
  rewrite !str_app_cons. by f_equal.
Qed.

Lemma chars_app a b :
  String.list_ascii_of_string (a +:+ b)
  = String.list_ascii_of_string a ++ String.list_ascii_of_string b.
Proof.
  induction a as [|x a IH]; [reflexivity|].
  rewrite str_app_cons. cbn [String.list_ascii_of_string]. by rewrite IH.
Qed.

Lemma last_char_app a b c :
  last_char b = Some c -> last_char (a +:+ b) = Some c.
Proof.
  unfold last_char. rewrite chars_app.
  induction (String.list_ascii_of_string b) as [|x l _] using rev_ind;
    [discriminate|].
  rewrite last_snoc. intros Hb.
  by rewrite List.app_assoc, last_snoc.
Qed.

Lemma last_char_inj a b : last_char a <> last_char b -> a <> b.
Proof. congruence. Qed.

Lemma string_of_uint_last u :
  u <> Decimal.Nil ->
  exists c, last_char (NilEmpty.string_of_uint u) = Some c
            /\ Mem.is_digit c = true.
Proof.
  induction u as [|u IH|u IH|u IH|u IH|u IH|u IH|u IH|u IH|u IH|u IH];
    intros Hne; [done| ..];
    (assert (u = Decimal.Nil \/ u <> Decimal.Nil) as [->|Hu]
       by (destruct u; [by left | by right ..]);
     [ eexists; split; [reflexivity | reflexivity]
     | destruct (IH Hu) as (c & Hc & Hd); exists c; split; [|done];
       cbn [NilEmpty.string_of_uint];
       match goal with
       | |- last_char (String ?x ?r) = _ =>
           change (String x r) with (String x EmptyString +:+ r)
       end;
       by apply last_char_app ]).
Qed.

Lemma to_uint_nonnil n : Nat.to_uint n <> Decimal.Nil.
Proof.
  rewrite <- (DecimalNat.Unsigned.of_to n) at 1.
  rewrite DecimalNat.Unsigned.to_of. unfold Decimal.unorm.
  by destruct (Decimal.nzhead (Nat.to_uint n)).
Qed.

Lemma fmt_06d_last n :
  exists c, last_char (Py.fmt_06d n) = Some c /\ Mem.is_digit c = true.
Proof.
  destruct (string_of_uint_last (Nat.to_uint n) (to_uint_nonnil n))
    as (c & Hc & Hd).
  exists c. split; [|done]. unfold Py.fmt_06d. by apply last_char_app.
Qed.

Lemma checkpoint_key_last folder file_prefix :
  last_char (checkpoint_key folder file_prefix) = Some "t"%char.
Proof.
  unfold checkpoint_key. rewrite <- !str_app_assoc. by apply last_char_app.
Qed.

(** A chunk is never written over the checkpoint: their names end
    differently. *)
Lemma chunk_key_not_checkpoint file_key n folder file_prefix :
  chunk_key file_key n <> checkpoint_key folder file_prefix.
Proof.
  apply last_char_inj. rewrite checkpoint_key_last.
  destruct (fmt_06d_last n) as (c & Hc & Hd).
  unfold chunk_key. rewrite (last_char_app _ _ _ Hc).
  intros [= ->]. discriminate.
Qed.

(** *** The exporter forms the groups of [split_groups] *)

Lemma join_snoc sep xs x :
  Py.join sep (xs ++ [x])
  = if is_nil xs then x else Py.join sep xs +:+ sep +:+ x.
Proof.
  induction xs as [|y ys IH]; [reflexivity|].
  destruct ys as [|z zs]; [reflexivity|].
  change (Py.join sep ((y :: z :: zs) ++ [x]))
    with (y +:+ sep +:+ Py.join sep ((z :: zs) ++ [x])).
  rewrite IH. cbn [is_nil].
  change (Py.join sep (y :: z :: zs))
    with (y +:+ sep +:+ Py.join sep (z :: zs)).
  by rewrite !str_app_assoc.
Qed.

Lemma open_array_snoc cur doc :
  open_array (cur ++ [doc])
  = (if is_nil cur then open_array cur else open_array cur +:+ ", ")
      +:+ dumps (VDoc doc).
Proof.
  unfold open_array. rewrite map_app. cbn [map]. rewrite join_snoc.
  destruct cur as [|d cur]; [reflexivity|].
  cbn [is_nil map]. by rewrite !str_app_assoc.
Qed.

Lemma group_key_snoc key_field cur doc :
  group_key key_field (cur ++ [doc]) = Some (dumps (doc_get key_field doc)).
Proof. unfold group_key. by rewrite last_snoc. Qed.

Lemma export_loop_groups key_field docs : forall cur seen,
  export_loop key_field docs (seen + length cur) (open_array cur)
    (is_nil cur) (group_key key_field cur)
  = chunks_of key_field seen (split_groups docs cur).
Proof.
  induction docs as [|doc rest IH]; intros cur seen; [reflexivity|].
  cbn [export_loop split_groups].
  rewrite <- open_array_snoc.
  replace (S (seen + length cur)) with (seen + length (cur ++ [doc]))%nat
    by (rewrite length_app; cbn; lia).
  destruct (DB_BACKUP_BULK_SIZE_LIMIT <? getsizeof (open_array (cur ++ [doc]))).
  - cbn [chunks_of]. rewrite group_key_snoc. f_equal.
    specialize (IH [] (seen + length (cur ++ [doc]))%nat).
    cbn [length] in IH. rewrite Nat.add_0_r in IH. exact IH.
  - rewrite <- (group_key_snoc key_field cur doc).
    replace false with (is_nil (cur ++ [doc])) by (by destruct cur).
    apply IH.
Qed.

Lemma get_collection_data_groups name q key_field APP_DB :
  get_collection_data name q key_field APP_DB
  = chunks_of key_field 0 (split_groups (find APP_DB name q) []).
Proof. exact (export_loop_groups key_field _ [] 0%nat). Qed.

Lemma concat_split_groups docs : forall cur,
  concat (split_groups docs cur) = cur ++ docs.
Proof.
  induction docs as [|doc rest IH]; intros cur; cbn [split_groups].
  - cbn. by rewrite !app_nil_r.
  - destruct (_ <? _).
    + cbn [concat]. rewrite IH. cbn. by rewrite <- List.app_assoc.
    + rewrite IH. by rewrite <- List.app_assoc.
Qed.

(** Every group but the last one was closed by the size test, on the
    array still open, and holds a document. *)
Lemma split_groups_closed docs : forall cur,
  exists gs g,
    split_groups docs cur = gs ++ [g]
    /\ Forall (fun g' => DB_BACKUP_BULK_SIZE_LIMIT < getsizeof (open_array g')
                         /\ g' <> []) gs.
Proof.
  induction docs as [|doc rest IH]; intros cur; cbn [split_groups].
  - by exists [], cur.
  - destruct (DB_BACKUP_BULK_SIZE_LIMIT <? getsizeof (open_array (cur ++ [doc])))
      eqn:E.
    + destruct (IH []) as (gs & g & -> & Hgs).
      exists ((cur ++ [doc]) :: gs), g. split; [done|].
      constructor; [|done]. split; [lia|]. by destruct cur.
    + apply IH.
Qed.

Lemma chunks_of_lookup key_field groups : forall seen i data last_key count,
  chunks_of key_field seen groups !! i = Some (data, last_key, count) ->
  exists g, groups !! i = Some g
            /\ data = render g
            /\ last_key = group_key key_field g
            /\ count = (seen + length (concat (take (S i) groups)))%nat.
Proof.
  induction groups as [|g gs IH]; intros seen i data last_key count;
    [done|].
  destruct i as [|i]; cbn [chunks_of].
  - intros [= <- <- <-]. exists g. cbn. by rewrite app_nil_r.
  - intros H. apply IH in H as (g' & Hg & -> & -> & ->).
    exists g'. repeat split; [done|].
    cbn [take concat]. rewrite length_app. lia.
Qed.

Lemma chunks_of_length key_field groups : forall seen,
  length (chunks_of key_field seen groups) = length groups.
Proof. induction groups as [|g gs IH]; intros seen; cbn; [done|]. by rewrite IH. Qed.

(** *** Writing the chunks *)

Lemma save_chunk_checkpoint_eq file_key folder file_prefix s3 n data last_key count :
  (save_chunk file_key folder file_prefix (s3, n) (data, last_key, count)).1
    !! checkpoint_key folder file_prefix
  = if in_guard_list last_key then s3 !! checkpoint_key folder file_prefix
    else last_key.
Proof.
  pose proof (chunk_key_not_checkpoint file_key (S n) folder file_prefix) as Hne.
  unfold save_chunk, save_last_id, put_s3_data. fold (chunk_key file_key (S n)).
  fold (checkpoint_key folder file_prefix).
  destruct last_key as [k|]; cbn [fst].
  - destruct (in_guard_list (Some k)).
    + by rewrite lookup_insert_ne.
    + by rewrite lookup_insert_eq.
  - cbn. by rewrite lookup_insert_ne.
Qed.

Lemma save_chunk_frame file_key folder file_prefix s3 n c k :
  (save_chunk file_key folder file_prefix (s3, n) c).1 !! k <> s3 !! k ->
  k = checkpoint_key folder file_prefix \/ k = chunk_key file_key (S n).
Proof.
  destruct c as [[data last_key] count].
  unfold save_chunk, save_last_id, put_s3_data. fold (chunk_key file_key (S n)).
  fold (checkpoint_key folder file_prefix). cbn [fst].
  destruct (decide (k = checkpoint_key folder file_prefix)) as [|Hk]; [by left|].
  destruct (decide (k = chunk_key file_key (S n))) as [|Hc]; [by right|].
  intros H. exfalso. apply H.
  destruct last_key as [l|]; [destruct (in_guard_list (Some l))|];
    by rewrite ?lookup_insert_ne.
Qed.

Lemma save_chunk_count file_key folder file_prefix s3 n c :
  (save_chunk file_key folder file_prefix (s3, n) c).2 = S n.
Proof. by destruct c as [[data last_key] count]. Qed.

Lemma fold_save_count file_key folder file_prefix chunks : forall st,
  (fold_left (save_chunk file_key folder file_prefix) chunks st).2
  = (st.2 + length chunks)%nat.
Proof.
  induction chunks as [|c cs IH]; intros [s3 n]; cbn [fold_left length].
  - cbn. lia.
  - rewrite IH, save_chunk_count. cbn. lia.
Qed.

Lemma fold_save_checkpoint file_key folder file_prefix key_field groups :
  forall seen s3 n,
    (fold_left (save_chunk file_key folder file_prefix)
       (chunks_of key_field seen groups) (s3, n)).1
      !! checkpoint_key folder file_prefix
    = final_checkpoint key_field groups (s3 !! checkpoint_key folder file_prefix).
Proof.
  induction groups as [|g gs IH]; intros seen s3 n; [reflexivity|].
  cbn [chunks_of fold_left final_checkpoint].
  destruct (save_chunk file_key folder file_prefix (s3, n)
              (render g, group_key key_field g, (seen + length g)%nat))
    as [s3' n'] eqn:E.
  rewrite IH. unfold final_checkpoint. f_equal.
  change s3' with (s3', n').1. rewrite <- E.
  apply save_chunk_checkpoint_eq.
Qed.

Lemma fold_save_frame file_key folder file_prefix chunks : forall s3 n k,
  (fold_left (save_chunk file_key folder file_prefix) chunks (s3, n)).1 !! k
    <> s3 !! k ->
  k = checkpoint_key folder file_prefix \/ exists m, k = chunk_key file_key m.
Proof.
  induction chunks as [|c cs IH]; intros s3 n k; cbn [fold_left]; [done|].
  destruct (save_chunk file_key folder file_prefix (s3, n) c) as [s3' n'] eqn:E.
  intros H.
  destruct (decide (s3' !! k = s3 !! k)) as [Heq|Hne].
  - rewrite <- Heq in H. by apply IH in H.
  - change s3' with (s3', n').1 in Hne. rewrite <- E in Hne.
    apply save_chunk_frame in Hne as [|]; eauto.
Qed.

Lemma final_checkpoint_cons key_field g gs init :
  final_checkpoint key_field (g :: gs) init
  = final_checkpoint key_field gs
      (if in_guard_list (group_key key_field g) then init
       else group_key key_field g).
Proof. reflexivity. Qed.

(** The checkpoint a run leaves is the key of the last document of the
    cursor, provided that key passes the guard. *)
Lemma final_checkpoint_split key_field docs : forall cur init,
  (forall doc, last (cur ++ docs) = Some doc ->
               in_guard_list (Some (dumps (doc_get key_field doc))) = false) ->
  final_checkpoint key_field (split_groups docs cur) init
  = match last (cur ++ docs) with
    | Some doc => Some (dumps (doc_get key_field doc))
    | None => init
    end.
Proof.
  induction docs as [|d rest IH]; intros cur init Hg.
  - rewrite app_nil_r in *. cbn. unfold group_key.
    destruct (last cur) as [doc|] eqn:E; [|reflexivity].
    by rewrite (Hg doc eq_refl).
  - cbn [split_groups].
    replace (cur ++ d :: rest) with ((cur ++ [d]) ++ rest) in *
      by (by rewrite <- List.app_assoc).
    destruct (_ <? _).
    + rewrite final_checkpoint_cons, group_key_snoc.
      destruct rest as [|d' rest'].
      * rewrite app_nil_r in *. rewrite last_snoc in *.
        rewrite (Hg d eq_refl). reflexivity.
      * rewrite IH.
        -- rewrite (last_app_cons (cur ++ [d])). cbn [app].
           destruct (last (d' :: rest')) eqn:E; [reflexivity|].
           by apply last_None in E.
        -- intros doc Hd. apply Hg. by rewrite last_app_cons.
    + by apply IH.
Qed.

Lemma chunks_of_app key_field gs gs' : forall seen,
  chunks_of key_field seen (gs ++ gs')
  = chunks_of key_field seen gs
      ++ chunks_of key_field (seen + length (concat gs))%nat gs'.
Proof.
  induction gs as [|g gs IH]; intros seen; cbn [app chunks_of concat].
  - cbn. by rewrite Nat.add_0_r.
  - rewrite IH, length_app, Nat.add_assoc. reflexivity.
Qed.

Lemma chunks_of_closed key_field gs : forall seen,
  Forall (fun g => DB_BACKUP_BULK_SIZE_LIMIT < getsizeof (open_array g)
                   /\ g <> []) gs ->
  Forall (fun c => exists g,
              g <> [] /\ chunk_data c = open_array g +:+ "]"
              /\ DB_BACKUP_BULK_SIZE_LIMIT < getsizeof (open_array g))
         (chunks_of key_field seen gs).
Proof.
  induction gs as [|g gs IH]; intros seen Hgs; cbn [chunks_of]; [constructor|].
  inversion Hgs as [|? ? [Hsize Hne] Hrest]; subst.
  constructor; [|by apply IH]. by exists g.
Qed.

Lemma doc_get_missing key_field doc :
  has_field key_field doc = false -> doc_get key_field doc = VNull.
Proof.
  induction doc as [|[k v] rest IH]; [reflexivity|]. cbn.
  by destruct (String.eqb k key_field).
Qed.

(** *** The exporter *)

(** C1 (amended).  The third component of every triple the exporter
    yields is the running total: the number of documents serialized into
    that chunk and all the chunks before it.  The groups partition the
    documents of the cursor in order, the data of the i-th triple
    is the array of the i-th group, and the count of the last
    triple is the number of documents exported (3 in the two-chunk
    scenario over 3 documents). *)
Theorem export_count_is_running_total name q key_field APP_DB :
  let docs := find APP_DB name q in
  let groups := split_groups docs [] in
  let chunks := get_collection_data name q key_field APP_DB in
  concat groups = docs
  /\ length chunks = length groups
  /\ (forall i c, chunks !! i = Some c ->
        exists g, groups !! i = Some g
                  /\ chunk_data c = render g
                  /\ chunk_count c = length (concat (take (S i) groups)))
  /\ (exists c, last chunks = Some c /\ chunk_count c = length docs).
Proof.
  intros docs groups chunks. subst chunks.
  rewrite get_collection_data_groups. fold docs. fold groups.
  assert (Hcat : concat groups = docs)
    by (unfold groups; by rewrite concat_split_groups).
  repeat split.
  - exact Hcat.
  - apply chunks_of_length.
  - intros i [[data last_key] count] Hi.
    apply chunks_of_lookup in Hi as (g & Hg & -> & -> & ->).
    by exists g.
  - destruct (split_groups_closed docs []) as (gs & g & Hsplit & _).
    fold groups in Hsplit. rewrite Hsplit in *.
    rewrite chunks_of_app. cbn [chunks_of]. rewrite last_snoc.
    eexists. split; [reflexivity|]. cbn.
    rewrite <- Hcat, concat_app, length_app. cbn. by rewrite app_nil_r.
Qed.

(** C4.  Every chunk of an export except the last one was closed by the
    size test: its data is the open array of its documents followed by
    the closing bracket, and the size measured on that open array is
    strictly above the limit.  Nothing is required of the last chunk;
    for an empty cursor it is the empty array. *)
Theorem chunk_closed_only_above_limit name q key_field APP_DB :
  exists closed final,
    get_collection_data name q key_field APP_DB = closed ++ [final]
    /\ Forall (fun c => exists g,
                  g <> [] /\ chunk_data c = open_array g +:+ "]"
                  /\ DB_BACKUP_BULK_SIZE_LIMIT < getsizeof (open_array g))
              closed
    /\ (find APP_DB name q = [] ->
        closed = [] /\ final = ("[]", None, 0%nat)).
Proof.
  rewrite get_collection_data_groups.
  destruct (split_groups_closed (find APP_DB name q) [])
    as (gs & g & Hsplit & Hgs).
  rewrite Hsplit, chunks_of_app. cbn [chunks_of].
  eexists _, _. split; [reflexivity|]. split.
  - by apply chunks_of_closed.
  - intros Hnil. rewrite Hnil in Hsplit. cbn in Hsplit.
    destruct gs as [|g' gs'].
    + injection Hsplit as <-. by split.
    + destruct gs'; discriminate.
Qed.

(** *** The checkpoint guard *)

(** C6.  For one chunk processed by the loop of [backup_collection]: when
    the last key is the empty string, [None] or the string None, the
    checkpoint blob is left as it was; for every other last key the
    checkpoint blob becomes that key. *)
Theorem guard_blocks_degenerate_checkpoint
    file_key folder file_prefix s3 n data last_key count :
  let s3' :=
    (save_chunk file_key folder file_prefix (s3, n) (data, last_key, count)).1 in
  let ck := checkpoint_key folder file_prefix in
  ((last_key = Some EmptyString \/ last_key = None \/ last_key = Some "None") ->
     s3' !! ck = s3 !! ck)
  /\ (forall k, last_key = Some k -> k <> EmptyString -> k <> "None" ->
        s3' !! ck = Some k).
Proof.
  intros s3' ck. subst s3' ck. rewrite save_chunk_checkpoint_eq. split.
  - by intros [-> | [-> | ->]].
  - intros k -> H1 H2. cbn.
    apply String.eqb_neq in H1, H2. by rewrite H1, H2.
Qed.

(** C10.  When the document appended last to a chunk lacks the key
    field, the last key of the chunk is the serialization of the missing
    value, the text null; it passes the guard, so the loop of
    [backup_collection] saves it and the checkpoint blob holds null. *)
Theorem missing_key_field_saves_null name q key_field APP_DB i c g doc :
  dumps VNull = "null" ->
  get_collection_data name q key_field APP_DB !! i = Some c ->
  split_groups (find APP_DB name q) [] !! i = Some (g ++ [doc]) ->
  has_field key_field doc = false ->
  chunk_last_key c = Some "null"
  /\ in_guard_list (chunk_last_key c) = false
  /\ forall file_key folder file_prefix s3 n,
       (save_chunk file_key folder file_prefix (s3, n) c).1
         !! checkpoint_key folder file_prefix = Some "null".
Proof.
  intros Hnull Hc Hg Hmiss. destruct c as [[data last_key] count].
  rewrite get_collection_data_groups in Hc.
  apply chunks_of_lookup in Hc as (g' & Hg' & -> & -> & ->).
  rewrite Hg in Hg'. injection Hg' as <-.
  unfold chunk_last_key. cbn [fst snd].
  rewrite group_key_snoc, (doc_get_missing _ _ Hmiss), Hnull.
  repeat split. intros. by rewrite save_chunk_checkpoint_eq.
Qed.

(** *** Runs of [backup_collection] *)

Lemma backup_collection_full name backup_id key_field APP_DB s3 :
  backup_collection name FULL_BACKUP backup_id key_field APP_DB s3
  = let r := save_chunks (get_s3_file_key name backup_id) backup_id
               (name +:+ "-")
               (get_collection_data name QAll key_field APP_DB) s3 in
    (r.1, Ok r.2).
Proof.
  unfold backup_collection. cbn.
  by destruct (save_chunks _ _ _ _ _).
Qed.

Lemma backup_collection_incremental name backup_id key_field APP_DB s3 :
  backup_collection name INCREMENTAL_BACKUP backup_id key_field APP_DB s3
  = let r := save_chunks
               (get_s3_file_key (name +:+ "-" +:+ backup_id) name) name
               EmptyString
               (get_collection_data name
                  (incremental_query name key_field s3) key_field APP_DB)
               s3 in
    (r.1, Ok r.2).
Proof.
  unfold backup_collection. cbn.
  by destruct (save_chunks _ _ _ _ _).
Qed.

Lemma incremental_query_resumes name key_field s3 saved K :
  s3 !! checkpoint_key name EmptyString = Some saved ->
  loads saved = Some K ->
  incremental_query name key_field s3 = QGt key_field K.
Proof.
  intros Hs HK. unfold incremental_query, get_last_saved_key, get_s3_data.
  change (name +:+ "/" +:+ LAST_ID_FILE_NAME)
    with (checkpoint_key name EmptyString).
  by rewrite Hs, HK.
Qed.

Lemma save_chunks_checkpoint file_key folder file_prefix key_field docs s3 :
  (save_chunks file_key folder file_prefix
     (chunks_of key_field 0 (split_groups docs [])) s3).1
    !! checkpoint_key folder file_prefix
  = final_checkpoint key_field (split_groups docs [])
      (s3 !! checkpoint_key folder file_prefix).
Proof. apply fold_save_checkpoint. Qed.

(** C3 (amended).  A full backup stores its checkpoint in the folder of
    the run, under the name of the collection followed by a hyphen and
    the checkpoint file name: when the key of the last document passes
    the guard, that blob holds it after the run; and the run changes no
    blob other than that one and its chunk files, all in the folder of
    the run. *)
Theorem full_backup_checkpoint_key name backup_id key_field APP_DB s3 :
  let s3' :=
    (backup_collection name FULL_BACKUP backup_id key_field APP_DB s3).1 in
  (forall doc,
      last (find APP_DB name QAll) = Some doc ->
      in_guard_list (Some (dumps (doc_get key_field doc))) = false ->
      s3' !! (backup_id +:+ "/" +:+ (name +:+ "-") +:+ "last_key.txt")
      = Some (dumps (doc_get key_field doc)))
  /\ (forall k, s3' !! k <> s3 !! k ->
        k = backup_id +:+ "/" +:+ (name +:+ "-") +:+ "last_key.txt"
        \/ exists m,
            k = (backup_id +:+ "/" +:+ name +:+ ".bak") +:+ Py.fmt_06d m).
Proof.
  intros s3'. subst s3'. rewrite backup_collection_full. cbn [fst].
  split.
  - intros doc Hlast Hguard.
    change (backup_id +:+ "/" +:+ (name +:+ "-") +:+ "last_key.txt")
      with (checkpoint_key backup_id (name +:+ "-")).
    rewrite get_collection_data_groups, save_chunks_checkpoint.
    rewrite final_checkpoint_split; cbn [app]; rewrite Hlast; [done|].
    by intros d [= ->].
  - intros k Hk. apply fold_save_frame in Hk. exact Hk.
Qed.

(** C5 (amended).  An incremental backup that starts from a stored
    checkpoint bound exports the documents the store returns for the
    filter key field above the bound, each of which satisfies the
    filter; the checkpoint stored after the run is the serialized key
    field of the last document the cursor returned, whatever the order
    of the cursor, and it is the checkpoint the run started from when
    the cursor returned nothing. *)
Theorem incremental_checkpoint_is_last_key
    name backup_id key_field APP_DB s3 saved K :
  s3 !! checkpoint_key name EmptyString = Some saved ->
  loads saved = Some K ->
  let docs := find APP_DB name (QGt key_field K) in
  let s3' :=
    (backup_collection name INCREMENTAL_BACKUP backup_id key_field
       APP_DB s3).1 in
  (exists groups,
      concat groups = docs
      /\ get_collection_data name (incremental_query name key_field s3)
           key_field APP_DB
         = chunks_of key_field 0 groups)
  /\ (forall doc, In doc docs -> gt (doc_get key_field doc) K = true)
  /\ (forall doc,
        last docs = Some doc ->
        in_guard_list (Some (dumps (doc_get key_field doc))) = false ->
        s3' !! checkpoint_key name EmptyString
        = Some (dumps (doc_get key_field doc)))
  /\ (docs = [] -> s3' !! checkpoint_key name EmptyString = Some saved).
Proof using find_sound.
  intros Hs HK docs s3'. subst s3'.
  rewrite backup_collection_incremental. cbn [fst].
  rewrite (incremental_query_resumes _ _ _ _ _ Hs HK).
  rewrite get_collection_data_groups. fold docs.
  rewrite save_chunks_checkpoint, Hs.
  repeat split.
  - exists (split_groups docs []). split; [|done].
    by rewrite concat_split_groups.
  - intros doc Hin. by apply find_sound in Hin as [_ Hgt].
  - intros doc Hlast Hguard.
    rewrite final_checkpoint_split; cbn [app]; rewrite Hlast; [done|].
    by intros d [= ->].
  - intros ->. reflexivity.
Qed.

(** C7.  An incremental backup run again while every document of the
    collection has its key field at or below the stored checkpoint
    exports no document: the exporter yields exactly one triple, the
    empty array with no last key and count 0; the run writes that one
    chunk and the stored checkpoint keeps its value. *)
Theorem incremental_rerun_is_idempotent
    name backup_id key_field APP_DB s3 saved K :
  s3 !! checkpoint_key name EmptyString = Some saved ->
  loads saved = Some K ->
  (forall doc, In doc (find APP_DB name QAll) ->
               gt (doc_get key_field doc) K = false) ->
  let run :=
    backup_collection name INCREMENTAL_BACKUP backup_id key_field APP_DB s3 in
  get_collection_data name (incremental_query name key_field s3)
    key_field APP_DB = [("[]", None, 0%nat)]
  /\ run = (<[chunk_key (get_s3_file_key (name +:+ "-" +:+ backup_id) name) 1
              := "[]"]> s3, Ok 1%nat)
  /\ run.1 !! checkpoint_key name EmptyString = Some saved.
Proof using find_sound.
  intros Hs HK Hle run. subst run.
  rewrite backup_collection_incremental.
  rewrite (incremental_query_resumes _ _ _ _ _ Hs HK).
  assert (Hnone : find APP_DB name (QGt key_field K) = []).
  { destruct (find APP_DB name (QGt key_field K)) as [|d l] eqn:E; [done|].
    assert (Hin : In d (find APP_DB name (QGt key_field K)))
      by (rewrite E; by left).
    apply find_sound in Hin as [Hall Hgt].
    rewrite (Hle d Hall) in Hgt. discriminate. }
  unfold get_collection_data. rewrite Hnone.
  cbn [export_loop save_chunks fold_left save_chunk fst snd in_guard_list].
  repeat split.
  unfold put_s3_data. fold (chunk_key (get_s3_file_key (name +:+ "-" +:+ backup_id) name) 1).
  rewrite lookup_insert_ne; [done|]. apply chunk_key_not_checkpoint.
Qed.

(** *** Dispatch on the mode token *)

Lemma backup_collection_known name backup_type backup_id key_field APP_DB s3 :
  backup_type = FULL_BACKUP \/ backup_type = INCREMENTAL_BACKUP ->
  exists s3' n,
    backup_collection name backup_type backup_id key_field APP_DB s3
    = (s3', Ok n).
Proof.
  intros [-> | ->].
  - rewrite backup_collection_full. by eexists _, _.
  - rewrite backup_collection_incremental. by eexists _, _.
Qed.

Lemma backup_item_returns name backup_conf backup_id APP_DB s3 :
  exists s3', backup_item name backup_conf backup_id APP_DB s3 = (s3', Ok tt).
Proof.
  unfold backup_item.
  destruct (Py.mem _ ["f"; FULL_BACKUP]).
  - destruct (backup_collection_known name FULL_BACKUP backup_id
                MONGO_DB_ID_FIELD APP_DB s3) as (s3' & n & ->); [by left|].
    by exists s3'.
  - destruct (Py.mem _ ["i"; INCREMENTAL_BACKUP]); [|by exists s3].
    match goal with
    | |- context [backup_collection name INCREMENTAL_BACKUP backup_id ?kf] =>
        destruct (backup_collection_known name INCREMENTAL_BACKUP backup_id
                    kf APP_DB s3) as (s3' & n & ->); [by right|]
    end.
    by exists s3'.
Qed.

Lemma mem_cons_false x y ys :
  Py.mem x (y :: ys) = false -> String.eqb x y = false /\ Py.mem x ys = false.
Proof. cbn. by destruct (String.eqb x y). Qed.

(** C2 (amended).  [backup] skips a collection whose mode token is not
    one of f, full, i, incremental: the item changes nothing and raises
    nothing, and [backup] as a whole never raises the
    unsupported-backup-type error.  That error is raised by
    [backup_collection] itself, when it is called with a backup type
    other than full and incremental. *)
Theorem unrecognized_mode_is_skipped :
  (forall name backup_conf backup_id APP_DB s3,
      Py.mem (mode_token backup_conf) ["f"; "full"; "i"; "incremental"] = false ->
      backup_item name backup_conf backup_id APP_DB s3 = (s3, Ok tt))
  /\ (forall conf backup_id APP_DB s3,
        (backup conf backup_id APP_DB s3).2 = Ok tt)
  /\ (forall name backup_type backup_id key_field APP_DB s3,
        backup_type <> "full" -> backup_type <> "incremental" ->
        backup_collection name backup_type backup_id key_field APP_DB s3
        = (s3, Raise (ValueError
                        ("Backup type " +:+ backup_type
                         +:+ " is not supported.")))).
Proof.
  repeat split.
  - intros name backup_conf backup_id APP_DB s3 H.
    apply mem_cons_false in H as [Hf H].
    apply mem_cons_false in H as [Hfull H].
    apply mem_cons_false in H as [Hi H].
    apply mem_cons_false in H as [Hinc _].
    unfold backup_item. fold (mode_token backup_conf).
    cbn [Py.mem]. unfold FULL_BACKUP, INCREMENTAL_BACKUP.
    by rewrite Hf, Hfull, Hi, Hinc.
  - intros conf backup_id APP_DB.
    induction conf as [|[name backup_conf] rest IH]; intros s3; [done|].
    cbn [backup].
    destruct (backup_item_returns name backup_conf backup_id APP_DB s3)
      as (s3' & ->).
    apply IH.
  - intros name backup_type backup_id key_field APP_DB s3 Hf Hi.
    unfold backup_collection, FULL_BACKUP, INCREMENTAL_BACKUP.
    apply String.eqb_neq in Hf, Hi. by rewrite Hf, Hi.
Qed.

(** *** Coverage of the configuration *)

Lemma mem_In x xs : Py.mem x xs = true <-> In x xs.
Proof.
  clear - x xs.
  induction xs as [|y ys IH]; cbn; [split; [discriminate | tauto]|].
  destruct (String.eqb_spec x y) as [->|Hne].
  - split; [by left | done].
  - rewrite IH. split; [by right|]. intros [Heq|Hin]; [congruence | done].
Qed.

Lemma missing_In (conf : list (string * string)) L x :
  In x (List.filter (fun x => negb (Py.mem x (map fst conf))) L)
  <-> In x L /\ ~ In x (map fst conf).
Proof.
  rewrite filter_In, negb_true_iff.
  split; intros [HL H]; (split; [done|]).
  - intros Hin. apply mem_In in Hin. congruence.
  - destruct (Py.mem x (map fst conf)) eqn:E; [|done].
    by apply mem_In in E.
Qed.

(** C8.  [check_missing_collections] raises exactly when a live
    collection name is not a key of the configuration; the message of
    the error is the fixed text followed by the list of the missing
    names, a name being listed exactly when it is live and not
    configured; otherwise the function returns without an error. *)
Theorem check_missing_collections_spec conf APP_DB :
  let live := list_collection_names APP_DB in
  let keys := map fst conf in
  ((exists x, In x live /\ ~ In x keys)
   <-> exists e, check_missing_collections conf APP_DB = Raise e)
  /\ ((exists x, In x live /\ ~ In x keys) ->
      exists missing,
        check_missing_collections conf APP_DB
        = Raise (NotImplementedError
                   ("Add the following collections to DB_BACKUP_CONF env-var: "
                    +:+ Py.repr_list missing))
        /\ forall x, In x missing <-> In x live /\ ~ In x keys)
  /\ ((forall x, In x live -> In x keys) ->
      check_missing_collections conf APP_DB = Ok tt).
Proof.
  intros live keys. unfold check_missing_collections.
  fold live. fold keys.
  set (missing := List.filter (fun x => negb (Py.mem x keys)) live).
  assert (Hmiss : forall x, In x missing <-> In x live /\ ~ In x keys)
    by (intros x; apply missing_In).
  destruct missing as [|m ms] eqn:E; cbn [length Nat.ltb Nat.leb].
  - split; [split|split].
    + intros (x & Hx). by apply Hmiss in Hx.
    + intros (e & He). discriminate.
    + intros (x & Hx). by apply Hmiss in Hx.
    + done.
  - split; [split|split].
    + intros _. eauto.
    + intros _. exists m. apply Hmiss; by left.
    + intros _. exists (m :: ms). split; [reflexivity | exact Hmiss].
    + intros Hall. destruct (Hmiss m) as [Hm _].
      destruct Hm as [Hl Hk]; [by left|]. by apply Hall in Hl.
Qed.

(** *** Restore *)

Lemma insert_each_seq target documents : forall count APP_DB APP_DB',
  insert_seq target documents APP_DB = Ok APP_DB' ->
  insert_each target documents count APP_DB
  = (APP_DB', Ok (count + length documents)%nat).
Proof.
  induction documents as [|doc rest IH]; intros count APP_DB APP_DB';
    cbn [insert_seq insert_each length].
  - intros [= ->]. by rewrite Nat.add_0_r.
  - destruct (insert_one APP_DB target doc) as [d|e]; [|discriminate].
    intros H. rewrite (IH _ _ _ H). f_equal. f_equal. lia.
Qed.

(** C9.  [restore_collection] depends on the bucket only through the
    blob at the folder, a slash, the collection name and the suffix
    .bak; when that blob is absent it raises the store's absent-key
    error and inserts nothing; when the blob decodes to an array of
    documents that the store accepts, each is inserted in turn into the
    collection named after the original with the suffix _restored, and
    the number of documents inserted is returned. *)
Theorem restore_collection_spec collection_name folder s3 APP_DB :
  let file_key := folder +:+ "/" +:+ collection_name +:+ ".bak" in
  (forall s3' : bucket,
      s3' !! file_key = s3 !! file_key ->
      restore_collection collection_name folder s3' APP_DB
      = restore_collection collection_name folder s3 APP_DB)
  /\ (s3 !! file_key = None ->
      restore_collection collection_name folder s3 APP_DB
      = (APP_DB, Raise (NoSuchKey file_key)))
  /\ (forall data documents APP_DB',
        s3 !! file_key = Some data ->
        loads data = Some (VArr documents) ->
        insert_seq (collection_name +:+ "_restored") documents APP_DB
        = Ok APP_DB' ->
        restore_collection collection_name folder s3 APP_DB
        = (APP_DB', Ok (length documents))).
Proof.
  intros file_key. unfold restore_collection, get_s3_data. fold file_key.
  repeat split.
  - intros s3' H. by rewrite H.
  - intros H. by rewrite H.
  - intros data documents APP_DB' Hd Hl Hi. rewrite Hd, Hl. cbn [iter_values].
    by rewrite (insert_each_seq _ _ 0%nat _ _ Hi).
Qed.

(** *** More on strings and object keys *)

Lemma chars_inj a b :
  String.list_ascii_of_string a = String.list_ascii_of_string b -> a = b.
Proof.
  intros H.
  rewrite <- (String.string_of_list_ascii_of_string a),
          <- (String.string_of_list_ascii_of_string b).
  by rewrite H.
Qed.

Lemma str_app_inv_tail a b t : a +:+ t = b +:+ t -> a = b.
Proof.
  intros H. apply chars_inj.
  apply (f_equal String.list_ascii_of_string) in H.
  rewrite !chars_app in H. by apply app_inv_tail in H.
Qed.

Lemma last_char_snoc a c : last_char (a +:+ String c EmptyString) = Some c.
Proof. by apply last_char_app. Qed.

Lemma restore_key_last collection_name folder :
  last_char (restore_key collection_name folder) = Some "k"%char.
Proof.
  unfold restore_key. rewrite <- !str_app_assoc. by apply last_char_app.
Qed.

Lemma restore_key_not_checkpoint collection_name folder folder' file_prefix :
  restore_key collection_name folder <> checkpoint_key folder' file_prefix.
Proof.
  apply last_char_inj. by rewrite restore_key_last, checkpoint_key_last.
Qed.

Lemma restore_key_not_chunk collection_name folder file_key n :
  restore_key collection_name folder <> chunk_key file_key n.
Proof.
  apply last_char_inj. rewrite restore_key_last.
  destruct (fmt_06d_last n) as (c & Hc & Hd).
  unfold chunk_key. rewrite (last_char_app _ _ _ Hc).
  intros [= <-]. discriminate.
Qed.

Lemma zeros_uint k u :
  Py.zeros k +:+ NilEmpty.string_of_uint u
  = NilEmpty.string_of_uint (Nat.iter k Decimal.D0 u).
Proof.
  induction k as [|k IH]; [reflexivity|].
  cbn [Py.zeros Nat.iter NilEmpty.string_of_uint].
  rewrite str_app_cons. by rewrite IH.
Qed.

Lemma of_uint_zeros k u :
  Nat.of_uint (Nat.iter k Decimal.D0 u) = Nat.of_uint u.
Proof. induction k as [|k IH]; [reflexivity|]. exact IH. Qed.

Lemma string_of_uint_inj u v :
  NilEmpty.string_of_uint u = NilEmpty.string_of_uint v -> u = v.
Proof.
  intros H. apply (f_equal NilEmpty.uint_of_string) in H.
  rewrite !NilEmpty.usu in H. by injection H.
Qed.

Lemma fmt_06d_inj n m : Py.fmt_06d n = Py.fmt_06d m -> n = m.
Proof.
  unfold Py.fmt_06d, Py.str_of_nat. rewrite !zeros_uint. intros H.
  apply string_of_uint_inj in H. apply (f_equal Nat.of_uint) in H.
  by rewrite !of_uint_zeros, !DecimalNat.Unsigned.of_to in H.
Qed.

(** *** The object store and the checkpoint file *)

(** X1.  A blob that was put is what the next get of its key returns, and
    the put leaves the get of every other key as it was. *)
Theorem put_then_get file_key data s3 :
  get_s3_data file_key (put_s3_data file_key data s3) = Ok data
  /\ forall file_key', file_key' <> file_key ->
       get_s3_data file_key' (put_s3_data file_key data s3)
       = get_s3_data file_key' s3.
Proof.
  unfold get_s3_data, put_s3_data. split.
  - by rewrite lookup_insert_eq.
  - intros k Hk. by rewrite lookup_insert_ne.
Qed.

(** X2.  A checkpoint saved without a prefix is the one
    [get_last_saved_key] reads back from the same folder. *)
Theorem saved_checkpoint_is_read_back folder last_id s3 :
  get_last_saved_key folder (save_last_id folder last_id EmptyString s3)
  = Ok last_id.
Proof.
  unfold get_last_saved_key, save_last_id, get_s3_data, put_s3_data.
  change (folder +:+ "/" +:+ EmptyString +:+ LAST_ID_FILE_NAME)
    with (folder +:+ "/" +:+ LAST_ID_FILE_NAME).
  by rewrite lookup_insert_eq.
Qed.

Lemma checkpoint_key_prefix_inj folder file_prefix :
  checkpoint_key folder file_prefix = checkpoint_key folder EmptyString ->
  file_prefix = EmptyString.
Proof.
  unfold checkpoint_key. intros H.
  apply (inj (String.append folder)) in H.
  apply (inj (String.append "/")) in H.
  by apply str_app_inv_tail in H.
Qed.

(** X3.  A checkpoint saved under a non-empty prefix is invisible to
    [get_last_saved_key]: what it reads from the folder is unchanged. *)
Theorem prefixed_checkpoint_is_not_read_back folder last_id file_prefix s3 :
  file_prefix <> EmptyString ->
  get_last_saved_key folder (save_last_id folder last_id file_prefix s3)
  = get_last_saved_key folder s3.
Proof.
  intros Hp.
  unfold get_last_saved_key, save_last_id, get_s3_data, put_s3_data.
  fold (checkpoint_key folder file_prefix).
  change (folder +:+ "/" +:+ LAST_ID_FILE_NAME)
    with (checkpoint_key folder EmptyString).
  rewrite lookup_insert_ne; [done|].
  intros H. by apply checkpoint_key_prefix_inj in H.
Qed.

(** X4.  Two sequence numbers never give the same chunk file key. *)
Theorem chunk_key_inj file_key n m :
  chunk_key file_key n = chunk_key file_key m -> n = m.
Proof.
  unfold chunk_key. intros H.
  apply (inj (String.append file_key)) in H. by apply fmt_06d_inj.
Qed.

(** *** More on the exporter *)

Lemma split_groups_length docs : forall cur,
  (1 <= length (split_groups docs cur) <= S (length docs))%nat.
Proof.
  induction docs as [|doc rest IH]; intros cur; cbn [split_groups length].
  - lia.
  - destruct (_ <? _); cbn [length].
    + specialize (IH []). lia.
    + specialize (IH (cur ++ [doc])). lia.
Qed.

(** X5.  The exporter yields at least one triple and at most one more
    than the number of documents of the cursor. *)
Theorem export_chunk_count_bounds name q key_field APP_DB :
  (1 <= length (get_collection_data name q key_field APP_DB)
   <= S (length (find APP_DB name q)))%nat.
Proof.
  rewrite get_collection_data_groups, chunks_of_length.
  apply split_groups_length.
Qed.

Lemma split_groups_single docs : forall cur,
  (forall n, (1 <= n <= length docs)%nat ->
             getsizeof (open_array (cur ++ take n docs))
             <= DB_BACKUP_BULK_SIZE_LIMIT) ->
  split_groups docs cur = [cur ++ docs].
Proof.
  induction docs as [|doc rest IH]; intros cur Hsize; cbn [split_groups].
  - by rewrite app_nil_r.
  - assert (H1 : getsizeof (open_array (cur ++ [doc]))
                 <= DB_BACKUP_BULK_SIZE_LIMIT)
      by (apply (Hsize 1%nat); cbn [length]; lia).
    destruct (DB_BACKUP_BULK_SIZE_LIMIT <? getsizeof (open_array (cur ++ [doc])))
      eqn:E; [apply Z.ltb_lt in E; lia|].
    rewrite IH; [by rewrite <- List.app_assoc|].
    intros n Hn. rewrite <- List.app_assoc.
    apply (Hsize (S n)). cbn [length]. lia.
Qed.

(** X6.  When no initial segment of the cursor makes the open array
    larger than the limit, the exporter yields a single triple: the array
    of all the documents, the key of the last one and their number. *)
Theorem export_single_chunk name q key_field APP_DB :
  let docs := find APP_DB name q in
  (forall n, (1 <= n <= length docs)%nat ->
             getsizeof (open_array (take n docs)) <= DB_BACKUP_BULK_SIZE_LIMIT) ->
  get_collection_data name q key_field APP_DB
  = [(render docs, group_key key_field docs, length docs)].
Proof.
  intros docs Hsize. rewrite get_collection_data_groups. fold docs.
  by rewrite (split_groups_single docs [] Hsize).
Qed.

Lemma split_groups_each docs :
  (forall doc, In doc docs ->
               DB_BACKUP_BULK_SIZE_LIMIT < getsizeof (open_array [doc])) ->
  split_groups docs [] = map (fun doc => [doc]) docs ++ [[]].
Proof.
  induction docs as [|doc rest IH]; intros Hsize; [reflexivity|].
  cbn [split_groups app map].
  pose proof (Hsize doc (or_introl eq_refl)) as H1.
  destruct (DB_BACKUP_BULK_SIZE_LIMIT <? getsizeof (open_array [doc])) eqn:E;
    [|apply Z.ltb_ge in E; lia].
  rewrite IH; [done|]. intros d Hd. apply Hsize. by right.
Qed.

Lemma chunks_of_singles key_field docs : forall seen,
  (forall i doc, docs !! i = Some doc ->
     chunks_of key_field seen (map (fun doc => [doc]) docs ++ [[]]) !! i
     = Some (render [doc], Some (dumps (doc_get key_field doc)),
             (seen + S i)%nat))
  /\ last (chunks_of key_field seen (map (fun doc => [doc]) docs ++ [[]]))
     = Some ("[]", None, (seen + length docs)%nat).
Proof.
  induction docs as [|d rest IH]; intros seen.
  - split; [done|]. cbn. by rewrite !Nat.add_0_r.
  - destruct (IH (seen + 1)%nat) as [IHi IHl]. split.
    + intros [|i] doc Hi; cbn [map app chunks_of length].
      * injection Hi as ->. reflexivity.
      * cbn in Hi. rewrite lookup_cons. rewrite (IHi i doc Hi).
        by replace (seen + 1 + S i)%nat with (seen + S (S i))%nat by lia.
    + cbn [map app chunks_of length].
      rewrite last_cons, IHl.
      by replace (seen + 1 + length rest)%nat
        with (seen + S (length rest))%nat by lia.
Qed.

(** X7.  When every document alone already makes the open array larger
    than the limit, every document gets a chunk of its own, with its own
    key and the running count, and the exporter ends with one more triple:
    the empty array with no last key and the total count. *)
Theorem export_one_chunk_per_document name q key_field APP_DB :
  let docs := find APP_DB name q in
  let chunks := get_collection_data name q key_field APP_DB in
  (forall doc, In doc docs ->
               DB_BACKUP_BULK_SIZE_LIMIT < getsizeof (open_array [doc])) ->
  length chunks = S (length docs)
  /\ (forall i doc, docs !! i = Some doc ->
        chunks !! i
        = Some (render [doc], Some (dumps (doc_get key_field doc)), S i))
  /\ last chunks = Some ("[]", None, length docs).
Proof.
  intros docs chunks Hsize. subst chunks.
  rewrite get_collection_data_groups. fold docs.
  rewrite (split_groups_each docs Hsize).
  destruct (chunks_of_singles key_field docs 0%nat) as [Hi Hl].
  split; [|split].
  - rewrite chunks_of_length, length_app, length_map. cbn. lia.
  - exact Hi.
  - exact Hl.
Qed.

Lemma chunks_of_nonempty key_field gs : forall seen,
  Forall (fun g => DB_BACKUP_BULK_SIZE_LIMIT < getsizeof (open_array g)
                   /\ g <> []) gs ->
  Forall (fun c => is_Some (chunk_last_key c) /\ (0 < chunk_count c)%nat)
         (chunks_of key_field seen gs).
Proof.
  induction gs as [|g gs IH]; intros seen Hgs; cbn [chunks_of]; [constructor|].
  inversion Hgs as [|? ? [_ Hne] Hrest]; subst.
  constructor; [|by apply IH].
  unfold chunk_last_key, chunk_count, group_key. cbn [fst snd].
  destruct g as [|d g] using rev_ind; [done|].
  rewrite last_snoc, length_app. cbn. split; [by eexists | lia].
Qed.

(** X8.  Only the last triple of an export can be empty: every triple
    before it carries a last key and a positive count, and a last triple
    without a last key is the empty array. *)
Theorem only_final_chunk_can_be_empty name q key_field APP_DB :
  exists closed final,
    get_collection_data name q key_field APP_DB = closed ++ [final]
    /\ Forall (fun c => is_Some (chunk_last_key c) /\ (0 < chunk_count c)%nat)
              closed
    /\ (chunk_last_key final = None -> chunk_data final = "[]").
Proof.
  rewrite get_collection_data_groups.
  destruct (split_groups_closed (find APP_DB name q) [])
    as (gs & g & -> & Hgs).
  rewrite chunks_of_app. cbn [chunks_of].
  eexists _, _. split; [reflexivity|]. split.
  - by apply chunks_of_nonempty.
  - unfold chunk_last_key, chunk_data, group_key. cbn [fst snd].
    destruct g as [|d g] using rev_ind; [done|].
    by rewrite last_snoc.
Qed.

Lemma chunks_of_key_free k1 k2 gs : forall seen,
  map chunk_data (chunks_of k1 seen gs) = map chunk_data (chunks_of k2 seen gs)
  /\ map chunk_count (chunks_of k1 seen gs)
     = map chunk_count (chunks_of k2 seen gs).
Proof.
  induction gs as [|g gs IH]; intros seen; [done|].
  cbn [chunks_of map]. destruct (IH (seen + length g)%nat) as [-> ->]. done.
Qed.

(** X9.  The key field only decides the last keys: the data and the
    counts of the triples are the same for any two key fields. *)
Theorem key_field_does_not_move_chunks name q k1 k2 APP_DB :
  map chunk_data (get_collection_data name q k1 APP_DB)
  = map chunk_data (get_collection_data name q k2 APP_DB)
  /\ map chunk_count (get_collection_data name q k1 APP_DB)
     = map chunk_count (get_collection_data name q k2 APP_DB).
Proof. rewrite !get_collection_data_groups. apply chunks_of_key_free. Qed.

(** *** More on the runs of [backup_collection] *)

Lemma save_chunk_blob file_key folder file_prefix s3 n data last_key count :
  (save_chunk file_key folder file_prefix (s3, n) (data, last_key, count)).1
    !! chunk_key file_key (S n) = Some data.
Proof.
  pose proof (chunk_key_not_checkpoint file_key (S n) folder file_prefix) as Hne.
  unfold save_chunk, save_last_id, put_s3_data. fold (chunk_key file_key (S n)).
  fold (checkpoint_key folder file_prefix). cbn [fst].
  destruct last_key as [k|]; [destruct (in_guard_list (Some k))|];
    rewrite ?lookup_insert_ne by done; by rewrite lookup_insert_eq.
Qed.

Lemma fold_save_frame_above file_key folder file_prefix chunks : forall s3 n k,
  (fold_left (save_chunk file_key folder file_prefix) chunks (s3, n)).1 !! k
    <> s3 !! k ->
  k = checkpoint_key folder file_prefix
  \/ exists m, (n < m)%nat /\ k = chunk_key file_key m.
Proof.
  induction chunks as [|c cs IH]; intros s3 n k; cbn [fold_left]; [done|].
  pose proof (save_chunk_count file_key folder file_prefix s3 n c) as Hn.
  destruct (save_chunk file_key folder file_prefix (s3, n) c) as [s3' n'] eqn:E.
  cbn [snd] in Hn. subst n'. intros H.
  destruct (decide (s3' !! k = s3 !! k)) as [Heq|Hne].
  - rewrite <- Heq in H. apply IH in H as [|(m & Hm & ->)]; [by left|].
    right. exists m. split; [lia | done].
  - change s3' with (s3', S n).1 in Hne. rewrite <- E in Hne.
    apply save_chunk_frame in Hne as [|]; [by left|].
    right. exists (S n). split; [lia | done].
Qed.

Lemma fold_save_blobs file_key folder file_prefix chunks : forall s3 n i c,
  chunks !! i = Some c ->
  (fold_left (save_chunk file_key folder file_prefix) chunks (s3, n)).1
    !! chunk_key file_key (n + S i) = Some (chunk_data c).
Proof.
  induction chunks as [|c0 cs IH]; intros s3 n i c Hi; [done|].
  cbn [fold_left].
  pose proof (save_chunk_count file_key folder file_prefix s3 n c0) as Hn.
  destruct (save_chunk file_key folder file_prefix (s3, n) c0) as [s3' n'] eqn:E.
  cbn [snd] in Hn. subst n'.
  destruct i as [|i].
  - injection Hi as ->. replace (n + 1)%nat with (S n) by lia.
    destruct (decide
                ((fold_left (save_chunk file_key folder file_prefix) cs
                    (s3', S n)).1 !! chunk_key file_key (S n)
                 = s3' !! chunk_key file_key (S n))) as [->|Hne].
    + change s3' with (s3', S n).1. rewrite <- E.
      destruct c as [[data last_key] count]. apply save_chunk_blob.
    + apply fold_save_frame_above in Hne as [Hck|(m & Hm & Hkey)].
      * by apply chunk_key_not_checkpoint in Hck.
      * apply (inj (String.append file_key)) in Hkey.
        apply fmt_06d_inj in Hkey. lia.
  - replace (n + S (S i))%nat with (S n + S i)%nat by lia.
    by apply IH.
Qed.

(** X10.  After a run of [backup_collection], full or incremental, the
    data of the i-th triple of the export is the blob stored under the
    file key followed by the sequence number i+1: no later chunk and no
    checkpoint overwrites it. *)
Theorem backup_chunks_are_stored name backup_id key_field APP_DB s3 :
  (forall i c,
      get_collection_data name QAll key_field APP_DB !! i = Some c ->
      (backup_collection name FULL_BACKUP backup_id key_field APP_DB s3).1
        !! chunk_key (get_s3_file_key name backup_id) (S i)
      = Some (chunk_data c))
  /\ (forall i c,
        get_collection_data name (incremental_query name key_field s3)
          key_field APP_DB !! i = Some c ->
        (backup_collection name INCREMENTAL_BACKUP backup_id key_field
           APP_DB s3).1
          !! chunk_key
               (get_s3_file_key (name +:+ "-" +:+ backup_id) name) (S i)
        = Some (chunk_data c)).
Proof.
  rewrite backup_collection_full, backup_collection_incremental.
  split; intros i c Hi; cbn [fst]; unfold save_chunks;
    by apply (fold_save_blobs _ _ _ _ _ 0%nat).
Qed.

(** X11.  The number [backup_collection] returns is the number of triples
    the exporter yielded, in both modes. *)
Theorem backup_returns_chunk_count name backup_id key_field APP_DB s3 :
  (backup_collection name FULL_BACKUP backup_id key_field APP_DB s3).2
  = Ok (length (get_collection_data name QAll key_field APP_DB))
  /\ (backup_collection name INCREMENTAL_BACKUP backup_id key_field
        APP_DB s3).2
     = Ok (length (get_collection_data name
                     (incremental_query name key_field s3) key_field APP_DB)).
Proof.
  rewrite backup_collection_full, backup_collection_incremental.
  split; cbn [snd]; unfold save_chunks; by rewrite fold_save_count.
Qed.

Lemma plain_checkpoint_not_prefixed folder name backup_id :
  checkpoint_key folder EmptyString
  <> checkpoint_key backup_id (name +:+ "-").
Proof.
  assert (E1 : checkpoint_key folder EmptyString
               = (folder +:+ "/") +:+ LAST_ID_FILE_NAME)
    by (unfold checkpoint_key; by rewrite str_app_assoc).
  assert (E2 : checkpoint_key backup_id (name +:+ "-")
               = (backup_id +:+ "/" +:+ name +:+ "-") +:+ LAST_ID_FILE_NAME)
    by (unfold checkpoint_key; by rewrite !str_app_assoc).
  rewrite E1, E2. intros H. apply str_app_inv_tail in H.
  apply (f_equal last_char) in H.
  rewrite (last_char_app folder "/" "/"%char eq_refl) in H.
  rewrite <- !str_app_assoc in H.
  rewrite (last_char_app _ "-" "-"%char eq_refl) in H.
  discriminate.
Qed.

(** X12.  A full backup never touches an incremental checkpoint: the
    blob named last_key.txt of every folder is after the run what it was
    before. *)
Theorem full_backup_spares_incremental_checkpoints
    name backup_id key_field APP_DB s3 folder :
  (backup_collection name FULL_BACKUP backup_id key_field APP_DB s3).1
    !! checkpoint_key folder EmptyString
  = s3 !! checkpoint_key folder EmptyString.
Proof.
  rewrite backup_collection_full. cbn [fst]. unfold save_chunks.
  match goal with |- ?l = ?r => destruct (decide (l = r)) as [|Hne] end;
    [done|].
  apply fold_save_frame in Hne as [Hck|(m & Hm)].
  - by apply plain_checkpoint_not_prefixed in Hck.
  - symmetry in Hm. by apply chunk_key_not_checkpoint in Hm.
Qed.

(** X13.  An incremental backup changes no blob other than the
    checkpoint of the collection and the chunk files of the run, all in
    the folder named after the collection. *)
Theorem incremental_backup_writes_only_its_files
    name backup_id key_field APP_DB s3 k :
  (backup_collection name INCREMENTAL_BACKUP backup_id key_field APP_DB s3).1
    !! k <> s3 !! k ->
  k = name +:+ "/" +:+ "last_key.txt"
  \/ exists m,
      k = (name +:+ "/" +:+ (name +:+ "-" +:+ backup_id) +:+ ".bak")
            +:+ Py.fmt_06d m.
Proof.
  rewrite backup_collection_incremental. cbn [fst]. unfold save_chunks.
  intros H. by apply fold_save_frame in H.
Qed.

(** X14.  Without a stored checkpoint, or with one that does not decode,
    an incremental backup exports what a full scan exports. *)
Theorem incremental_without_checkpoint_exports_all name key_field APP_DB s3 :
  (s3 !! checkpoint_key name EmptyString = None
   \/ exists saved, s3 !! checkpoint_key name EmptyString = Some saved
                    /\ loads saved = None) ->
  get_collection_data name (incremental_query name key_field s3)
    key_field APP_DB
  = get_collection_data name QAll key_field APP_DB.
Proof.
  intros H. unfold incremental_query, get_last_saved_key, get_s3_data.
  change (name +:+ "/" +:+ LAST_ID_FILE_NAME)
    with (checkpoint_key name EmptyString).
  destruct H as [-> | (saved & -> & ->)]; reflexivity.
Qed.

(** X15.  The checkpoint an incremental run leaves is where the next run
    starts: when the key of the last document the cursor returned passes
    the guard and decodes back to a bound, the query of the next
    incremental run on the resulting bucket is key field above that
    bound. *)
Theorem next_run_resumes_after_last_key
    name backup_id key_field APP_DB s3 doc K :
  last (find APP_DB name (incremental_query name key_field s3)) = Some doc ->
  in_guard_list (Some (dumps (doc_get key_field doc))) = false ->
  loads (dumps (doc_get key_field doc)) = Some K ->
  incremental_query name key_field
    (backup_collection name INCREMENTAL_BACKUP backup_id key_field
       APP_DB s3).1
  = QGt key_field K.
Proof.
  intros Hlast Hguard HK.
  apply incremental_query_resumes with (saved := dumps (doc_get key_field doc));
    [|exact HK].
  rewrite backup_collection_incremental. cbn [fst].
  rewrite get_collection_data_groups, save_chunks_checkpoint.
  rewrite final_checkpoint_split; cbn [app]; rewrite Hlast; [done|].
  by intros d [= ->].
Qed.

(** *** More on [backup], the script and [restore_collection] *)

Lemma backup_collection_cases name backup_type backup_id key_field APP_DB s3 k :
  (backup_collection name backup_type backup_id key_field APP_DB s3).1 !! k
    <> s3 !! k ->
  (k = checkpoint_key backup_id (name +:+ "-")
   \/ exists m, k = chunk_key (get_s3_file_key name backup_id) m)
  \/ (k = checkpoint_key name EmptyString
      \/ exists m,
          k = chunk_key (get_s3_file_key (name +:+ "-" +:+ backup_id) name) m).
Proof.
  destruct (String.eqb_spec backup_type FULL_BACKUP) as [->|Hf].
  - rewrite backup_collection_full. cbn [fst]. unfold save_chunks.
    intros H. left. by apply fold_save_frame in H.
  - destruct (String.eqb_spec backup_type INCREMENTAL_BACKUP) as [->|Hi].
    + rewrite backup_collection_incremental. cbn [fst]. unfold save_chunks.
      intros H. right. by apply fold_save_frame in H.
    + unfold backup_collection.
      apply String.eqb_neq in Hf, Hi. by rewrite Hf, Hi.
Qed.

Lemma backup_item_cases name backup_conf backup_id APP_DB s3 k :
  (backup_item name backup_conf backup_id APP_DB s3).1 !! k <> s3 !! k ->
  (k = checkpoint_key backup_id (name +:+ "-")
   \/ exists m, k = chunk_key (get_s3_file_key name backup_id) m)
  \/ (k = checkpoint_key name EmptyString
      \/ exists m,
          k = chunk_key (get_s3_file_key (name +:+ "-" +:+ backup_id) name) m).
Proof.
  unfold backup_item.
  destruct (Py.mem _ ["f"; FULL_BACKUP]).
  - destruct (backup_collection name FULL_BACKUP backup_id MONGO_DB_ID_FIELD
                APP_DB s3) as [s3' [n|e]] eqn:E; cbn [fst]; intros H;
      change s3' with (s3', @Ok nat n).1 in H || change s3' with (s3', @Raise nat e).1 in H;
      rewrite <- E in H; by apply backup_collection_cases in H.
  - destruct (Py.mem _ ["i"; INCREMENTAL_BACKUP]); [|done].
    match goal with
    | |- context [backup_collection name INCREMENTAL_BACKUP backup_id ?kf] =>
        destruct (backup_collection name INCREMENTAL_BACKUP backup_id kf
                    APP_DB s3) as [s3' [n|e]] eqn:E
    end; cbn [fst]; intros H;
      change s3' with (s3', @Ok nat n).1 in H || change s3' with (s3', @Raise nat e).1 in H;
      rewrite <- E in H; by apply backup_collection_cases in H.
Qed.

Lemma backup_cons name backup_conf rest backup_id APP_DB s3 :
  backup ((name, backup_conf) :: rest) backup_id APP_DB s3
  = backup rest backup_id APP_DB
      (backup_item name backup_conf backup_id APP_DB s3).1.
Proof.
  cbn [backup].
  by destruct (backup_item_returns name backup_conf backup_id APP_DB s3)
    as (s3' & ->).
Qed.

Lemma backup_returns conf backup_id APP_DB : forall s3,
  exists s3', backup conf backup_id APP_DB s3 = (s3', Ok tt).
Proof.
  induction conf as [|[name backup_conf] rest IH]; intros s3.
  - by exists s3.
  - rewrite backup_cons. apply IH.
Qed.

(** X16.  [backup] handles the items of the configuration one after the
    other: backing up a configuration followed by a second one is backing
    up the first and then the second on the bucket the first left. *)
Theorem backup_app conf1 conf2 backup_id APP_DB s3 :
  backup (conf1 ++ conf2) backup_id APP_DB s3
  = backup conf2 backup_id APP_DB (backup conf1 backup_id APP_DB s3).1.
Proof.
  revert s3. induction conf1 as [|[name backup_conf] rest IH]; intros s3;
    [reflexivity|].
  cbn [app]. rewrite !backup_cons. apply IH.
Qed.

(** X17.  Every blob [backup] changes belongs to a collection of the
    configuration: it is that collection's checkpoint or chunk file in
    the folder of the run, or its checkpoint or chunk file in the folder
    named after the collection. *)
Theorem backup_writes_only_configured_files conf backup_id APP_DB s3 k :
  (backup conf backup_id APP_DB s3).1 !! k <> s3 !! k ->
  exists name,
    In name (map fst conf)
    /\ ((k = checkpoint_key backup_id (name +:+ "-")
         \/ exists m, k = chunk_key (get_s3_file_key name backup_id) m)
        \/ (k = checkpoint_key name EmptyString
            \/ exists m,
                k = chunk_key
                      (get_s3_file_key (name +:+ "-" +:+ backup_id) name) m)).
Proof.
  revert s3. induction conf as [|[name backup_conf] rest IH]; intros s3;
    [done|].
  rewrite backup_cons. intros H.
  destruct (decide
              ((backup_item name backup_conf backup_id APP_DB s3).1 !! k
               = s3 !! k)) as [Heq|Hne].
  - rewrite <- Heq in H. apply IH in H as (n & Hn & Hk).
    exists n. split; [by right | done].
  - exists name. split; [by left|]. by apply backup_item_cases in Hne.
Qed.

Lemma restore_collection_ext collection_name folder (s3 s3' : bucket) APP_DB :
  s3' !! restore_key collection_name folder
  = s3 !! restore_key collection_name folder ->
  restore_collection collection_name folder s3' APP_DB
  = restore_collection collection_name folder s3 APP_DB.
Proof.
  unfold restore_collection, get_s3_data.
  fold (restore_key collection_name folder). by intros ->.
Qed.

Lemma backup_item_spares_restore_key
    name backup_conf backup_id APP_DB s3 collection_name folder :
  (backup_item name backup_conf backup_id APP_DB s3).1
    !! restore_key collection_name folder
  = s3 !! restore_key collection_name folder.
Proof.
  match goal with |- ?l = ?r => destruct (decide (l = r)) as [|Hne] end;
    [done|].
  apply backup_item_cases in Hne as [[H|(m & H)]|[H|(m & H)]].
  - by apply restore_key_not_checkpoint in H.
  - by apply restore_key_not_chunk in H.
  - by apply restore_key_not_checkpoint in H.
  - by apply restore_key_not_chunk in H.
Qed.

(** X18.  [backup] never writes a blob that [restore_collection] reads:
    for every collection name and folder, restoring from the bucket a
    backup left gives what restoring from the bucket before it gave. *)
Theorem backup_never_feeds_restore
    conf backup_id APP_DB s3 collection_name folder RESTORE_DB :
  restore_collection collection_name folder
    (backup conf backup_id APP_DB s3).1 RESTORE_DB
  = restore_collection collection_name folder s3 RESTORE_DB.
Proof.
  apply restore_collection_ext.
  revert s3. induction conf as [|[name backup_conf] rest IH]; intros s3;
    [reflexivity|].
  rewrite backup_cons, IH.
  apply backup_item_spares_restore_key.
Qed.

Lemma check_missing_collections_cases conf APP_DB :
  (check_missing_collections conf APP_DB = Ok tt
   /\ forall x, In x (list_collection_names APP_DB) -> In x (map fst conf))
  \/ (exists msg,
        check_missing_collections conf APP_DB = Raise (NotImplementedError msg))
      /\ exists x, In x (list_collection_names APP_DB)
                   /\ ~ In x (map fst conf).
Proof.
  unfold check_missing_collections.
  pose proof (missing_In conf (list_collection_names APP_DB)) as Hmiss.
  destruct (List.filter _ (list_collection_names APP_DB)) as [|m ms];
    cbn [length Nat.ltb Nat.leb].
  - left. split; [done|]. intros x Hx.
    destruct (in_dec String.string_dec x (map fst conf)) as [|Hn]; [done|].
    by destruct (proj2 (Hmiss x) (conj Hx Hn)).
  - right. split; [by eexists|]. exists m. apply Hmiss. by left.
Qed.

(** X19.  For a configuration that was read, the script ends with the
    bucket [backup] produces whether or not the coverage check failed, and
    its status is WARNING when some live collection is not configured and
    OK otherwise; when reading the configuration fails it ends with ERROR
    and the bucket untouched. *)
Theorem db_backup_main_status conf backup_id APP_DB s3 :
  (db_backup_main (Ok conf) backup_id APP_DB s3).1
  = (backup conf backup_id APP_DB s3).1
  /\ ((forall x, In x (list_collection_names APP_DB) -> In x (map fst conf)) ->
      (db_backup_main (Ok conf) backup_id APP_DB s3).2 = OK)
  /\ ((exists x, In x (list_collection_names APP_DB)
                 /\ ~ In x (map fst conf)) ->
      (db_backup_main (Ok conf) backup_id APP_DB s3).2 = WARNING)
  /\ (forall e, db_backup_main (Raise e) backup_id APP_DB s3 = (s3, ERROR)).
Proof.
  unfold db_backup_main.
  destruct (backup_returns conf backup_id APP_DB s3) as (s3' & ->).
  destruct (check_missing_collections_cases conf APP_DB)
    as [[-> Hall] | [(msg & ->) (x & Hx & Hn)]]; cbn [fst snd].
  - split; [done|]. split; [done|]. split; [|done].
    intros (x & Hx & Hn). by apply Hall in Hx.
  - split; [done|]. split; [|by split].
    intros Hall. by apply Hall in Hx.
Qed.

(** X20.  Adding entries to a configuration that covers the live
    collections keeps the coverage check silent. *)
Theorem coverage_is_monotone conf conf' APP_DB :
  (forall x, In x (map fst conf) -> In x (map fst conf')) ->
  check_missing_collections conf APP_DB = Ok tt ->
  check_missing_collections conf' APP_DB = Ok tt.
Proof.
  intros Hsub Hok.
  destruct (check_missing_collections_cases conf APP_DB)
    as [[_ Hall] | [(msg & Hr) _]]; [|congruence].
  destruct (check_missing_collections_cases conf' APP_DB)
    as [[H _] | [_ (x & Hx & Hn)]]; [done|].
  exfalso. apply Hn, Hsub, Hall, Hx.
Qed.

Lemma insert_each_stops target pre : forall doc post count APP_DB APP_DB1 e,
  insert_seq target pre APP_DB = Ok APP_DB1 ->
  insert_one APP_DB1 target doc = Raise e ->
  insert_each target (pre ++ doc :: post) count APP_DB = (APP_DB1, Raise e).
Proof.
  induction pre as [|d pre IH]; intros doc post count APP_DB APP_DB1 e;
    cbn [insert_seq insert_each app].
  - intros [= ->] ->. reflexivity.
  - destruct (insert_one APP_DB target d) as [APP_DB'|e']; [|discriminate].
    apply IH.
Qed.

(** X21.  A failing insertion ends the restore and keeps what was
    inserted before it: when the documents before the failing one were
    inserted, [restore_collection] returns the database they left and
    raises the error of the failing insertion; the documents after it are
    not inserted. *)
Theorem restore_stops_at_first_failure
    collection_name folder s3 APP_DB data pre doc post APP_DB1 e :
  s3 !! restore_key collection_name folder = Some data ->
  loads data = Some (VArr (pre ++ doc :: post)) ->
  insert_seq (collection_name +:+ "_restored") pre APP_DB = Ok APP_DB1 ->
  insert_one APP_DB1 (collection_name +:+ "_restored") doc = Raise e ->
  restore_collection collection_name folder s3 APP_DB = (APP_DB1, Raise e).
Proof.
  intros Hd Hl Hpre Hdoc.
  unfold restore_collection, get_s3_data.
  fold (restore_key collection_name folder). rewrite Hd, Hl.
  cbn [iter_values]. by apply insert_each_stops.
Qed.




End Engine.

(** ** Checks of the primitives *)

Example strip_ex : Py.strip "  Incremental-created_at " = "Incremental-created_at".
Proof. reflexivity. Qed.

Example split_ex :
  Py.split "-" "incremental-created_at" = ["incremental"; "created_at"].
Proof. reflexivity. Qed.

Example split_empty_ex : Py.split "-" "" = [""].
Proof. reflexivity. Qed.

Example lower_ex : Py.lower "FuLL" = "full".
Proof. reflexivity. Qed.

Example fmt_06d_ex : Py.fmt_06d 12 = "000012".
Proof. reflexivity. Qed.

Example fmt_06d_zero_ex : Py.fmt_06d 0 = "000000".
Proof. reflexivity. Qed.

Example repr_list_ex : Py.repr_list ["assets"; "it's"] = "['assets', " +:+ String Py.dquote ("it's" +:+ String Py.dquote "]").
Proof. reflexivity. Qed.

Example dumps_doc_ex :
  Mem.loads (Mem.dumps (VDoc [("_id", VInt 7); ("name", VStr "ann")]))
  = Some (VDoc [("_id", VInt 7); ("name", VStr "ann")]).
Proof. vm_compute. reflexivity. Qed.

Example dumps_text_ex :
  Mem.dumps (VDoc [("_id", VInt 7)]) = "{" +:+ Mem.quote "_id" +:+ ": 7}".
Proof. vm_compute. reflexivity. Qed.

Example loads_arr_ex :
  Mem.loads (Mem.dumps (VArr [VDoc [("_id", VInt 1)]; VDoc [("_id", VInt (-2)); ("x", VNull)]]))
  = Some (VArr [VDoc [("_id", VInt 1)]; VDoc [("_id", VInt (-2)); ("x", VNull)]]).
Proof. vm_compute. reflexivity. Qed.

Example loads_bad_ex : Mem.loads "first document" = None.
Proof. vm_compute. reflexivity. Qed.

(** ** The in-memory store keeps the promise of [find] *)

Lemma Mem_find_all APP_DB name doc :
  In doc (Mem.find APP_DB name QAll) <-> In doc (Mem.docs_of name APP_DB).
Proof.
  unfold Mem.find. rewrite filter_In. cbn. tauto.
Qed.

Lemma Mem_find_sound APP_DB name key_field bound doc :
  In doc (Mem.find APP_DB name (QGt key_field bound)) ->
  In doc (Mem.find APP_DB name QAll)
  /\ Mem.gt (doc_get key_field doc) bound = true.
Proof.
  rewrite Mem_find_all. unfold Mem.find. rewrite filter_In. cbn. tauto.
Qed.

(** ** The claims on the sample stores *)

(** C1, as first stated, fails: on three users and a limit of 65 bytes the
    exporter yields two chunks of 2 and 1 documents, the second triple
    carries the count 3, and the counts add up to 5. *)
Lemma count_is_not_per_chunk_counterexample :
  let chunks :=
    get_collection_data Mem.dumps Mem.getsizeof 65 Mem.db Mem.find
      "users" QAll "_id" Sample.users_db in
  map chunk_data chunks
  = [render Mem.dumps [Sample.doc_id 1; Sample.doc_id 2];
     render Mem.dumps [Sample.doc_id 3]]
  /\ map chunk_count chunks = [2; 3]%nat
  /\ map chunk_count chunks <> [2; 1]%nat
  /\ list_sum (map chunk_count chunks) <> 3%nat.
Proof. vm_compute. repeat split; discriminate. Qed.

Lemma export_count_is_running_total_witness :
  exists c,
    last (get_collection_data Mem.dumps Mem.getsizeof 65 Mem.db Mem.find
            "users" QAll "_id" Sample.users_db) = Some c
    /\ chunk_count c = 3%nat.
Proof.
  destruct (export_count_is_running_total Mem.dumps Mem.getsizeof 65 Mem.db
              Mem.find "users" QAll "_id" Sample.users_db)
    as (_ & _ & _ & c & Hc & Hn).
  exists c. split; [exact Hc | exact Hn].
Defined.

Lemma chunk_closed_only_above_limit_witness :
  exists closed final,
    get_collection_data Mem.dumps Mem.getsizeof 65 Mem.db Mem.find
      "users" QAll "_id" Sample.users_db = closed ++ [final]
    /\ Forall (fun c => exists g,
                  g <> [] /\ chunk_data c = open_array Mem.dumps g +:+ "]"
                  /\ 65 < Mem.getsizeof (open_array Mem.dumps g)) closed.
Proof.
  destruct (chunk_closed_only_above_limit Mem.dumps Mem.getsizeof 65 Mem.db
              Mem.find "users" QAll "_id" Sample.users_db)
    as (closed & final & Heq & Hclosed & _).
  exists closed, final. split; [exact Heq | exact Hclosed].
Defined.

(** C2, as first stated, fails: for the mode string 0, whose token is none
    of f, full, i, incremental, [backup] returns normally, with the bucket
    untouched, and raises nothing. *)
Lemma unrecognized_mode_counterexample :
  let run :=
    backup Mem.dumps Mem.loads Mem.getsizeof 65 Mem.db Mem.find
      [("assets", "0")] "2024_01_01-00_00_00" Sample.users_db ∅ in
  Py.mem (mode_token "0") ["f"; "full"; "i"; "incremental"] = false
  /\ run = (∅, Ok tt)
  /\ ~ (exists msg, run.2 = Raise (ValueError msg)).
Proof.
  vm_compute. repeat split. intros (msg & H). discriminate.
Qed.

Lemma unrecognized_mode_is_skipped_witness :
  Py.mem (mode_token " None-x ") ["f"; "full"; "i"; "incremental"] = false
  /\ backup_item Mem.dumps Mem.loads Mem.getsizeof 65 Mem.db Mem.find
       "assets" " None-x " "2024_01_01-00_00_00" Sample.users_db ∅
     = (∅, Ok tt)
  /\ "none" <> "full" /\ "none" <> "incremental"
  /\ backup_collection Mem.dumps Mem.loads Mem.getsizeof 65 Mem.db Mem.find
       "assets" "none" "2024_01_01-00_00_00" "_id" Sample.users_db ∅
     = (∅, Raise (ValueError "Backup type none is not supported.")).
Proof.
  destruct (unrecognized_mode_is_skipped Mem.dumps Mem.loads Mem.getsizeof 65
              Mem.db Mem.find) as (Hskip & _ & Hraise).
  assert (H1 : Py.mem (mode_token " None-x ") ["f"; "full"; "i"; "incremental"]
               = false) by reflexivity.
  assert (H2 : "none" <> "full") by discriminate.
  assert (H3 : "none" <> "incremental") by discriminate.
  split; [exact H1|]. split; [exact (Hskip _ _ _ _ _ H1)|].
  split; [exact H2|]. split; [exact H3|].
  exact (Hraise "assets" "none" "2024_01_01-00_00_00" "_id"
           Sample.users_db ∅ H2 H3).
Defined.

(** C3, as first stated, fails: a full backup of the users under the run
    2024_01_01-00_00_00 writes its checkpoint in the folder of the run and
    nothing in a folder named after the collection. *)
Lemma full_backup_checkpoint_counterexample :
  let s3' :=
    (backup_collection Mem.dumps Mem.loads Mem.getsizeof 65 Mem.db Mem.find
       "users" "full" "2024_01_01-00_00_00" "_id" Sample.users_db ∅).1 in
  s3' !! "2024_01_01-00_00_00/users-last_key.txt" = Some "3"
  /\ s3' !! "users/users-last_key.txt" = None
  /\ ~ is_Some (s3' !! "users/users-last_key.txt").
Proof.
  vm_compute. repeat split. intros [x H]. discriminate.
Qed.

Lemma full_backup_checkpoint_key_witness :
  last (Mem.find Sample.users_db "users" QAll) = Some (Sample.doc_id 3)
  /\ in_guard_list (Some (Mem.dumps (doc_get "_id" (Sample.doc_id 3)))) = false
  /\ (backup_collection Mem.dumps Mem.loads Mem.getsizeof 65 Mem.db Mem.find
        "users" "full" "2024_01_01-00_00_00" "_id" Sample.users_db ∅).1
       !! "2024_01_01-00_00_00/users-last_key.txt" = Some "3".
Proof.
  destruct (full_backup_checkpoint_key Mem.dumps Mem.loads Mem.getsizeof 65
              Mem.db Mem.find "users" "2024_01_01-00_00_00" "_id"
              Sample.users_db ∅) as (Hck & _).
  assert (H1 : last (Mem.find Sample.users_db "users" QAll)
               = Some (Sample.doc_id 3)) by reflexivity.
  assert (H2 : in_guard_list
                 (Some (Mem.dumps (doc_get "_id" (Sample.doc_id 3)))) = false)
    by reflexivity.
  split; [exact H1|]. split; [exact H2|].
  exact (Hck _ H1 H2).
Defined.

(** C5, as first stated, fails: from the checkpoint 1 the cursor returns
    the sessions with keys 5 and 3 in that order, both above the
    checkpoint; after the run the stored checkpoint is 3, not the
    maximum 5. *)
Lemma checkpoint_is_not_maximum_counterexample :
  let s3' :=
    (backup_collection Mem.dumps Mem.loads Mem.getsizeof 1000 Mem.db Mem.find
       "sessions" "incremental" "2024_01_01-00_00_00" "_id"
       Sample.sessions_db Sample.sessions_s3).1 in
  Sample.sessions_s3 !! "sessions/last_key.txt" = Some "1"
  /\ Mem.find Sample.sessions_db "sessions" (QGt "_id" (VInt 1))
     = [Sample.doc_id 5; Sample.doc_id 3]
  /\ s3' !! "sessions/last_key.txt" = Some "3"
  /\ s3' !! "sessions/last_key.txt" <> Some (Mem.dumps (VInt (Z.max 5 3))).
Proof. vm_compute. repeat split. discriminate. Qed.

Lemma incremental_checkpoint_is_last_key_witness :
  Sample.sessions_s3 !! checkpoint_key "sessions" "" = Some "1"
  /\ Mem.loads "1" = Some (VInt 1)
  /\ (forall doc,
        In doc (Mem.find Sample.sessions_db "sessions" (QGt "_id" (VInt 1))) ->
        Mem.gt (doc_get "_id" doc) (VInt 1) = true)
  /\ (backup_collection Mem.dumps Mem.loads Mem.getsizeof 1000 Mem.db Mem.find
        "sessions" "incremental" "2024_01_01-00_00_00" "_id"
        Sample.sessions_db Sample.sessions_s3).1
       !! checkpoint_key "sessions" "" = Some "3".
Proof.
  assert (H1 : Sample.sessions_s3 !! checkpoint_key "sessions" "" = Some "1")
    by reflexivity.
  assert (H2 : Mem.loads "1" = Some (VInt 1)) by reflexivity.
  destruct (incremental_checkpoint_is_last_key Mem.dumps Mem.loads
              Mem.getsizeof 1000 Mem.db Mem.find Mem.gt Mem_find_sound
              "sessions" "2024_01_01-00_00_00" "_id"
              Sample.sessions_db Sample.sessions_s3 "1" (VInt 1) H1 H2)
    as (_ & Hgt & Hlast & _).
  split; [exact H1|]. split; [exact H2|]. split; [exact Hgt|].
  apply (Hlast (Sample.doc_id 3)); reflexivity.
Defined.

Lemma guard_blocks_degenerate_checkpoint_witness :
  (Some "None" = Some EmptyString \/ Some "None" = None
   \/ Some "None" = Some "None")
  /\ (save_chunk "sessions/sessions-r.bak" "sessions" ""
        (Sample.sessions_s3, 0%nat) ("[]", Some "None", 0%nat)).1
       !! "sessions/last_key.txt" = Some "1"
  /\ "7" <> EmptyString /\ "7" <> "None"
  /\ (save_chunk "sessions/sessions-r.bak" "sessions" ""
        (Sample.sessions_s3, 0%nat) ("[]", Some "7", 1%nat)).1
       !! "sessions/last_key.txt" = Some "7".
Proof.
  assert (H0 : Some "None" = Some EmptyString \/ Some "None" = None
               \/ Some "None" = Some "None") by (right; right; reflexivity).
  assert (H1 : "7" <> EmptyString) by discriminate.
  assert (H2 : "7" <> "None") by discriminate.
  split; [exact H0|]. split.
  - exact (proj1 (guard_blocks_degenerate_checkpoint
                    "sessions/sessions-r.bak" "sessions" ""
                    Sample.sessions_s3 0%nat "[]" (Some "None") 0%nat) H0).
  - split; [exact H1|]. split; [exact H2|].
    exact (proj2 (guard_blocks_degenerate_checkpoint
                    "sessions/sessions-r.bak" "sessions" ""
                    Sample.sessions_s3 0%nat "[]" (Some "7") 1%nat)
             "7" eq_refl H1 H2).
Defined.

Lemma incremental_rerun_is_idempotent_witness :
  Sample.sessions_done_s3 !! checkpoint_key "sessions" "" = Some "5"
  /\ Mem.loads "5" = Some (VInt 5)
  /\ (forall doc,
        In doc (Mem.find Sample.sessions_db "sessions" QAll) ->
        Mem.gt (doc_get "_id" doc) (VInt 5) = false)
  /\ backup_collection Mem.dumps Mem.loads Mem.getsizeof 1000 Mem.db Mem.find
       "sessions" "incremental" "2024_01_02-00_00_00" "_id"
       Sample.sessions_db Sample.sessions_done_s3
     = (<["sessions/sessions-2024_01_02-00_00_00.bak000001" := "[]"]>
          Sample.sessions_done_s3, Ok 1%nat).
Proof.
  assert (H1 : Sample.sessions_done_s3 !! checkpoint_key "sessions" ""
               = Some "5") by reflexivity.
  assert (H2 : Mem.loads "5" = Some (VInt 5)) by reflexivity.
  assert (H3 : forall doc,
             In doc (Mem.find Sample.sessions_db "sessions" QAll) ->
             Mem.gt (doc_get "_id" doc) (VInt 5) = false).
  { intros doc [<- | [<- | []]]; reflexivity. }
  split; [exact H1|]. split; [exact H2|]. split; [exact H3|].
  exact (proj1 (proj2 (incremental_rerun_is_idempotent Mem.dumps Mem.loads
                         Mem.getsizeof 1000 Mem.db Mem.find Mem.gt
                         Mem_find_sound "sessions" "2024_01_02-00_00_00" "_id"
                         Sample.sessions_db Sample.sessions_done_s3
                         "5" (VInt 5) H1 H2 H3))).
Defined.

Lemma check_missing_collections_spec_witness :
  (exists x, In x (Mem.list_collection_names Sample.users_db)
             /\ ~ In x (map fst [("assets", "0")]))
  /\ (exists missing,
        check_missing_collections Mem.db Mem.list_collection_names
          [("assets", "0")] Sample.users_db
        = Raise (NotImplementedError
                   ("Add the following collections to DB_BACKUP_CONF env-var: "
                    +:+ Py.repr_list missing))
        /\ forall x, In x missing <->
                     In x (Mem.list_collection_names Sample.users_db)
                     /\ ~ In x (map fst [("assets", "0")]))
  /\ (forall x, In x (Mem.list_collection_names Sample.users_db) ->
                In x (map fst [("users", "full")]))
  /\ check_missing_collections Mem.db Mem.list_collection_names
       [("users", "full")] Sample.users_db = Ok tt.
Proof.
  assert (H1 : exists x, In x (Mem.list_collection_names Sample.users_db)
                         /\ ~ In x (map fst [("assets", "0")])).
  { exists "users". split; [by left|]. intros [H | []]. discriminate. }
  assert (H2 : forall x, In x (Mem.list_collection_names Sample.users_db) ->
                         In x (map fst [("users", "full")])).
  { intros x [<- | []]. by left. }
  split; [exact H1|]. split.
  - exact (proj1 (proj2 (check_missing_collections_spec Mem.db
                           Mem.list_collection_names [("assets", "0")]
                           Sample.users_db)) H1).
  - split; [exact H2|].
    exact (proj2 (proj2 (check_missing_collections_spec Mem.db
                           Mem.list_collection_names [("users", "full")]
                           Sample.users_db)) H2).
Defined.

Lemma restore_collection_spec_witness :
  Sample.backup_s3 !! "2023/users.bak" = None
  /\ restore_collection Mem.loads Mem.db Mem.insert_one "users" "2023"
       Sample.backup_s3 []
     = ([], Raise (NoSuchKey "2023/users.bak"))
  /\ Sample.backup_s3 !! "2024/users.bak"
     = Some (Mem.dumps (VArr [VDoc (Sample.doc_id 1); VDoc (Sample.doc_id 2)]))
  /\ Mem.loads (Mem.dumps (VArr [VDoc (Sample.doc_id 1); VDoc (Sample.doc_id 2)]))
     = Some (VArr [VDoc (Sample.doc_id 1); VDoc (Sample.doc_id 2)])
  /\ insert_seq Mem.db Mem.insert_one "users_restored"
       [VDoc (Sample.doc_id 1); VDoc (Sample.doc_id 2)] []
     = Ok [("users_restored", [Sample.doc_id 1; Sample.doc_id 2])]
  /\ restore_collection Mem.loads Mem.db Mem.insert_one "users" "2024"
       Sample.backup_s3 []
     = ([("users_restored", [Sample.doc_id 1; Sample.doc_id 2])], Ok 2%nat).
Proof.
  assert (H1 : Sample.backup_s3 !! "2023/users.bak" = None) by reflexivity.
  assert (H2 : Sample.backup_s3 !! "2024/users.bak"
               = Some (Mem.dumps (VArr [VDoc (Sample.doc_id 1);
                                        VDoc (Sample.doc_id 2)])))
    by reflexivity.
  assert (H3 : Mem.loads (Mem.dumps (VArr [VDoc (Sample.doc_id 1);
                                           VDoc (Sample.doc_id 2)]))
               = Some (VArr [VDoc (Sample.doc_id 1); VDoc (Sample.doc_id 2)]))
    by (vm_compute; reflexivity).
  assert (H4 : insert_seq Mem.db Mem.insert_one "users_restored"
                 [VDoc (Sample.doc_id 1); VDoc (Sample.doc_id 2)] []
               = Ok [("users_restored", [Sample.doc_id 1; Sample.doc_id 2])])
    by reflexivity.
  split; [exact H1|]. split.
  - exact (proj1 (proj2 (restore_collection_spec Mem.loads Mem.db
                           Mem.insert_one "users" "2023" Sample.backup_s3 []))
             H1).
  - split; [exact H2|]. split; [exact H3|]. split; [exact H4|].
    exact (proj2 (proj2 (restore_collection_spec Mem.loads Mem.db
                           Mem.insert_one "users" "2024" Sample.backup_s3 []))
             _ _ _ H2 H3 H4).
Defined.

Lemma missing_key_field_saves_null_witness :
  let chunks :=
    get_collection_data Mem.dumps Mem.getsizeof 1000 Mem.db Mem.find
      "notes" QAll "_id" Sample.notes_db in
  let c := (render Mem.dumps [Sample.doc_id 1; [("text", VStr "hi")]],
            Some "null", 2%nat) in
  Mem.dumps VNull = "null"
  /\ chunks !! 0%nat = Some c
  /\ split_groups Mem.dumps Mem.getsizeof 1000
       (Mem.find Sample.notes_db "notes" QAll) [] !! 0%nat
     = Some ([Sample.doc_id 1] ++ [[("text", VStr "hi")]])
  /\ has_field "_id" [("text", VStr "hi")] = false
  /\ (save_chunk "2024/notes.bak" "2024" "notes-" (∅, 0%nat) c).1
       !! checkpoint_key "2024" "notes-" = Some "null".
Proof.
  intros chunks c.
  assert (H1 : Mem.dumps VNull = "null") by reflexivity.
  assert (H2 : chunks !! 0%nat = Some c) by (vm_compute; reflexivity).
  assert (H3 : split_groups Mem.dumps Mem.getsizeof 1000
                 (Mem.find Sample.notes_db "notes" QAll) [] !! 0%nat
               = Some ([Sample.doc_id 1] ++ [[("text", VStr "hi")]]))
    by (vm_compute; reflexivity).
  assert (H4 : has_field "_id" [("text", VStr "hi")] = false) by reflexivity.
  split; [exact H1|]. split; [exact H2|]. split; [exact H3|].
  split; [exact H4|].
  exact (proj2 (proj2 (missing_key_field_saves_null Mem.dumps Mem.getsizeof
                         1000 Mem.db Mem.find "notes" QAll "_id"
                         Sample.notes_db 0%nat c [Sample.doc_id 1]
                         [("text", VStr "hi")] H1 H2 H3 H4))
           "2024/notes.bak" "2024" "notes-" ∅ 0%nat).
Defined.

(** ** Further properties on the sample stores *)

Lemma put_then_get_witness :
  "b" <> "a"
  /\ get_s3_data "b" (put_s3_data "a" "x" Sample.sessions_s3)
     = get_s3_data "b" Sample.sessions_s3.
Proof.
  assert (H : "b" <> "a") by discriminate.
  split; [exact H|].
  exact (proj2 (put_then_get "a" "x" Sample.sessions_s3) "b" H).
Defined.

Lemma prefixed_checkpoint_is_not_read_back_witness :
  "sessions-" <> EmptyString
  /\ get_last_saved_key "sessions"
       (save_last_id "sessions" "9" "sessions-" Sample.sessions_s3)
     = Ok "1".
Proof.
  assert (H : "sessions-" <> EmptyString) by discriminate.
  split; [exact H|].
  exact (prefixed_checkpoint_is_not_read_back "sessions" "9" "sessions-"
           Sample.sessions_s3 H).
Defined.

Lemma chunk_key_inj_witness :
  chunk_key "2024/users.bak" 3 = chunk_key "2024/users.bak" (1 + 2)
  /\ 3%nat = (1 + 2)%nat.
Proof.
  assert (H : chunk_key "2024/users.bak" 3 = chunk_key "2024/users.bak" (1 + 2))
    by reflexivity.
  split; [exact H|]. exact (chunk_key_inj "2024/users.bak" 3 (1 + 2) H).
Defined.

Lemma export_single_chunk_witness :
  (forall n, (1 <= n <= length (Mem.find Sample.users_db "users" QAll))%nat ->
     Mem.getsizeof
       (open_array Mem.dumps (take n (Mem.find Sample.users_db "users" QAll)))
     <= 1000)
  /\ get_collection_data Mem.dumps Mem.getsizeof 1000 Mem.db Mem.find
       "users" QAll "_id" Sample.users_db
     = [(render Mem.dumps [Sample.doc_id 1; Sample.doc_id 2; Sample.doc_id 3],
         Some "3", 3%nat)].
Proof.
  assert (H : forall n,
             (1 <= n <= length (Mem.find Sample.users_db "users" QAll))%nat ->
             Mem.getsizeof
               (open_array Mem.dumps
                  (take n (Mem.find Sample.users_db "users" QAll)))
             <= 1000).
  { intros n Hn.
    change (length (Mem.find Sample.users_db "users" QAll)) with 3%nat in Hn.
    destruct n as [|[|[|[|n]]]]; [lia| | | |lia]; vm_compute; discriminate. }
  split; [exact H|].
  exact (export_single_chunk Mem.dumps Mem.getsizeof 1000 Mem.db Mem.find
           "users" QAll "_id" Sample.users_db H).
Defined.

Lemma export_one_chunk_per_document_witness :
  (forall doc, In doc (Mem.find Sample.users_db "users" QAll) ->
               0 < Mem.getsizeof (open_array Mem.dumps [doc]))
  /\ length (get_collection_data Mem.dumps Mem.getsizeof 0 Mem.db Mem.find
               "users" QAll "_id" Sample.users_db) = 4%nat
  /\ last (get_collection_data Mem.dumps Mem.getsizeof 0 Mem.db Mem.find
             "users" QAll "_id" Sample.users_db) = Some ("[]", None, 3%nat).
Proof.
  assert (H : forall doc, In doc (Mem.find Sample.users_db "users" QAll) ->
                          0 < Mem.getsizeof (open_array Mem.dumps [doc])).
  { intros doc [<- | [<- | [<- | []]]]; reflexivity. }
  destruct (export_one_chunk_per_document Mem.dumps Mem.getsizeof 0 Mem.db
              Mem.find "users" QAll "_id" Sample.users_db H)
    as (Hlen & _ & Hlast).
  split; [exact H|]. split; [exact Hlen | exact Hlast].
Defined.

Lemma backup_chunks_are_stored_witness :
  let c := (render Mem.dumps [Sample.doc_id 1; Sample.doc_id 2],
            Some "2", 2%nat) in
  get_collection_data Mem.dumps Mem.getsizeof 65 Mem.db Mem.find
    "users" QAll "_id" Sample.users_db !! 0%nat = Some c
  /\ (backup_collection Mem.dumps Mem.loads Mem.getsizeof 65 Mem.db Mem.find
        "users" "full" "2024_01_01-00_00_00" "_id" Sample.users_db ∅).1
       !! "2024_01_01-00_00_00/users.bak000001"
     = Some (render Mem.dumps [Sample.doc_id 1; Sample.doc_id 2]).
Proof.
  intros c.
  assert (H : get_collection_data Mem.dumps Mem.getsizeof 65 Mem.db Mem.find
                "users" QAll "_id" Sample.users_db !! 0%nat = Some c)
    by (vm_compute; reflexivity).
  split; [exact H|].
  exact (proj1 (backup_chunks_are_stored Mem.dumps Mem.loads Mem.getsizeof 65
                  Mem.db Mem.find "users" "2024_01_01-00_00_00" "_id"
                  Sample.users_db ∅) 0%nat c H).
Defined.

Lemma incremental_backup_writes_only_its_files_witness :
  let s3' :=
    (backup_collection Mem.dumps Mem.loads Mem.getsizeof 1000 Mem.db Mem.find
       "sessions" "incremental" "2024_01_01-00_00_00" "_id"
       Sample.sessions_db Sample.sessions_s3).1 in
  s3' !! "sessions/last_key.txt" <> Sample.sessions_s3 !! "sessions/last_key.txt"
  /\ ("sessions/last_key.txt" = "sessions" +:+ "/" +:+ "last_key.txt"
      \/ exists m,
          "sessions/last_key.txt"
          = ("sessions" +:+ "/" +:+ ("sessions" +:+ "-" +:+ "2024_01_01-00_00_00")
             +:+ ".bak") +:+ Py.fmt_06d m).
Proof.
  intros s3'.
  assert (H : s3' !! "sessions/last_key.txt"
              <> Sample.sessions_s3 !! "sessions/last_key.txt")
    by (vm_compute; discriminate).
  split; [exact H|].
  exact (incremental_backup_writes_only_its_files Mem.dumps Mem.loads
           Mem.getsizeof 1000 Mem.db Mem.find "sessions"
           "2024_01_01-00_00_00" "_id" Sample.sessions_db Sample.sessions_s3
           "sessions/last_key.txt" H).
Defined.

Lemma incremental_without_checkpoint_exports_all_witness :
  ((∅ : bucket) !! checkpoint_key "sessions" "" = None
   \/ exists saved, (∅ : bucket) !! checkpoint_key "sessions" "" = Some saved
                    /\ Mem.loads saved = None)
  /\ get_collection_data Mem.dumps Mem.getsizeof 1000 Mem.db Mem.find
       "sessions" (incremental_query Mem.loads "sessions" "_id" ∅) "_id"
       Sample.sessions_db
     = get_collection_data Mem.dumps Mem.getsizeof 1000 Mem.db Mem.find
         "sessions" QAll "_id" Sample.sessions_db.
Proof.
  assert (H : (∅ : bucket) !! checkpoint_key "sessions" "" = None
              \/ exists saved,
                  (∅ : bucket) !! checkpoint_key "sessions" "" = Some saved
                  /\ Mem.loads saved = None) by (left; reflexivity).
  split; [exact H|].
  exact (incremental_without_checkpoint_exports_all Mem.dumps Mem.loads
           Mem.getsizeof 1000 Mem.db Mem.find "sessions" "_id"
           Sample.sessions_db ∅ H).
Defined.

Lemma next_run_resumes_after_last_key_witness :
  last (Mem.find Sample.sessions_db "sessions"
          (incremental_query Mem.loads "sessions" "_id" Sample.sessions_s3))
  = Some (Sample.doc_id 3)
  /\ in_guard_list (Some (Mem.dumps (doc_get "_id" (Sample.doc_id 3)))) = false
  /\ Mem.loads (Mem.dumps (doc_get "_id" (Sample.doc_id 3))) = Some (VInt 3)
  /\ incremental_query Mem.loads "sessions" "_id"
       (backup_collection Mem.dumps Mem.loads Mem.getsizeof 1000 Mem.db
          Mem.find "sessions" "incremental" "2024_01_01-00_00_00" "_id"
          Sample.sessions_db Sample.sessions_s3).1
     = QGt "_id" (VInt 3).
Proof.
  assert (H1 : last (Mem.find Sample.sessions_db "sessions"
                       (incremental_query Mem.loads "sessions" "_id"
                          Sample.sessions_s3))
               = Some (Sample.doc_id 3)) by (vm_compute; reflexivity).
  assert (H2 : in_guard_list
                 (Some (Mem.dumps (doc_get "_id" (Sample.doc_id 3)))) = false)
    by reflexivity.
  assert (H3 : Mem.loads (Mem.dumps (doc_get "_id" (Sample.doc_id 3)))
               = Some (VInt 3)) by reflexivity.
  split; [exact H1|]. split; [exact H2|]. split; [exact H3|].
  exact (next_run_resumes_after_last_key Mem.dumps Mem.loads Mem.getsizeof
           1000 Mem.db Mem.find "sessions" "2024_01_01-00_00_00" "_id"
           Sample.sessions_db Sample.sessions_s3 (Sample.doc_id 3) (VInt 3)
           H1 H2 H3).
Defined.

Lemma backup_writes_only_configured_files_witness :
  let s3' :=
    (backup Mem.dumps Mem.loads Mem.getsizeof 65 Mem.db Mem.find
       [("users", " Full ")] "2024_01_01-00_00_00" Sample.users_db ∅).1 in
  s3' !! "2024_01_01-00_00_00/users.bak000002"
  <> (∅ : bucket) !! "2024_01_01-00_00_00/users.bak000002"
  /\ exists name, In name (map fst [("users", " Full ")]).
Proof.
  intros s3'.
  assert (H : s3' !! "2024_01_01-00_00_00/users.bak000002"
              <> (∅ : bucket) !! "2024_01_01-00_00_00/users.bak000002")
    by (vm_compute; discriminate).
  split; [exact H|].
  destruct (backup_writes_only_configured_files Mem.dumps Mem.loads
              Mem.getsizeof 65 Mem.db Mem.find [("users", " Full ")]
              "2024_01_01-00_00_00" Sample.users_db ∅
              "2024_01_01-00_00_00/users.bak000002" H) as (name & Hin & _).
  by exists name.
Defined.

Lemma db_backup_main_status_witness :
  (forall x, In x (Mem.list_collection_names Sample.users_db) ->
             In x (map fst [("users", "full")]))
  /\ (db_backup_main Mem.dumps Mem.loads Mem.getsizeof 65 Mem.db
        Mem.list_collection_names Mem.find (Ok [("users", "full")])
        "2024_01_01-00_00_00" Sample.users_db ∅).2 = OK
  /\ (exists x, In x (Mem.list_collection_names Sample.users_db)
                /\ ~ In x (map fst [("assets", "full")]))
  /\ (db_backup_main Mem.dumps Mem.loads Mem.getsizeof 65 Mem.db
        Mem.list_collection_names Mem.find (Ok [("assets", "full")])
        "2024_01_01-00_00_00" Sample.users_db ∅).2 = WARNING.
Proof.
  assert (H1 : forall x, In x (Mem.list_collection_names Sample.users_db) ->
                         In x (map fst [("users", "full")])).
  { intros x [<- | []]. by left. }
  assert (H2 : exists x, In x (Mem.list_collection_names Sample.users_db)
                         /\ ~ In x (map fst [("assets", "full")])).
  { exists "users". split; [by left|]. intros [H | []]. discriminate. }
  split; [exact H1|]. split.
  - exact (proj1 (proj2 (db_backup_main_status Mem.dumps Mem.loads
                           Mem.getsizeof 65 Mem.db Mem.list_collection_names
                           Mem.find [("users", "full")] "2024_01_01-00_00_00"
                           Sample.users_db ∅)) H1).
  - split; [exact H2|].
    exact (proj1 (proj2 (proj2 (db_backup_main_status Mem.dumps Mem.loads
                                  Mem.getsizeof 65 Mem.db
                                  Mem.list_collection_names Mem.find
                                  [("assets", "full")] "2024_01_01-00_00_00"
                                  Sample.users_db ∅))) H2).
Defined.

Lemma coverage_is_monotone_witness :
  (forall x, In x (map fst [("users", "f")]) ->
             In x (map fst [("users", "f"); ("assets", "0")]))
  /\ check_missing_collections Mem.db Mem.list_collection_names
       [("users", "f")] Sample.users_db = Ok tt
  /\ check_missing_collections Mem.db Mem.list_collection_names
       [("users", "f"); ("assets", "0")] Sample.users_db = Ok tt.
Proof.
  assert (H1 : forall x, In x (map fst [("users", "f")]) ->
                         In x (map fst [("users", "f"); ("assets", "0")])).
  { intros x [<- | []]. by left. }
  assert (H2 : check_missing_collections Mem.db Mem.list_collection_names
                 [("users", "f")] Sample.users_db = Ok tt) by reflexivity.
  split; [exact H1|]. split; [exact H2|].
  exact (coverage_is_monotone Mem.db Mem.list_collection_names
           [("users", "f")] [("users", "f"); ("assets", "0")]
           Sample.users_db H1 H2).
Defined.

Lemma restore_stops_at_first_failure_witness :
  Sample.broken_s3 !! restore_key "users" "2024"
  = Some (Mem.dumps (VArr [VDoc (Sample.doc_id 1); VInt 7;
                           VDoc (Sample.doc_id 2)]))
  /\ Mem.loads (Mem.dumps (VArr [VDoc (Sample.doc_id 1); VInt 7;
                                 VDoc (Sample.doc_id 2)]))
     = Some (VArr ([VDoc (Sample.doc_id 1)] ++ VInt 7 :: [VDoc (Sample.doc_id 2)]))
  /\ insert_seq Mem.db Mem.insert_one "users_restored"
       [VDoc (Sample.doc_id 1)] []
     = Ok [("users_restored", [Sample.doc_id 1])]
  /\ Mem.insert_one [("users_restored", [Sample.doc_id 1])] "users_restored"
       (VInt 7) = Raise TypeError
  /\ restore_collection Mem.loads Mem.db Mem.insert_one "users" "2024"
       Sample.broken_s3 []
     = ([("users_restored", [Sample.doc_id 1])], Raise TypeError).
Proof.
  assert (H1 : Sample.broken_s3 !! restore_key "users" "2024"
               = Some (Mem.dumps (VArr [VDoc (Sample.doc_id 1); VInt 7;
                                        VDoc (Sample.doc_id 2)])))
    by reflexivity.
  assert (H2 : Mem.loads (Mem.dumps (VArr [VDoc (Sample.doc_id 1); VInt 7;
                                           VDoc (Sample.doc_id 2)]))
               = Some (VArr ([VDoc (Sample.doc_id 1)]
                               ++ VInt 7 :: [VDoc (Sample.doc_id 2)])))
    by (vm_compute; reflexivity).
  assert (H3 : insert_seq Mem.db Mem.insert_one "users_restored"
                 [VDoc (Sample.doc_id 1)] []
               = Ok [("users_restored", [Sample.doc_id 1])]) by reflexivity.
  assert (H4 : Mem.insert_one [("users_restored", [Sample.doc_id 1])]
                 "users_restored" (VInt 7) = Raise TypeError) by reflexivity.
  split; [exact H1|]. split; [exact H2|]. split; [exact H3|].
  split; [exact H4|].
  exact (restore_stops_at_first_failure Mem.loads Mem.db Mem.insert_one
           "users" "2024" Sample.broken_s3 [] _ _ _ _ _ _ H1 H2 H3 H4).
Defined.

Lemma only_final_chunk_can_be_empty_witness :
  exists closed final,
    get_collection_data Mem.dumps Mem.getsizeof 0 Mem.db Mem.find
      "users" QAll "_id" Sample.users_db = closed ++ [final]
    /\ Forall (fun c => is_Some (chunk_last_key c) /\ (0 < chunk_count c)%nat)
              closed
    /\ chunk_last_key final = None
    /\ chunk_data final = "[]".
Proof.
  destruct (only_final_chunk_can_be_empty Mem.dumps Mem.getsizeof 0 Mem.db
              Mem.find "users" QAll "_id" Sample.users_db)
    as (closed & final & Heq & Hclosed & Hempty).
  assert (Hnone : chunk_last_key final = None).
  { assert (Hl : last (closed ++ [final]) = Some ("[]", None, 3%nat))
      by (rewrite <- Heq; vm_compute; reflexivity).
    rewrite last_snoc in Hl. by injection Hl as ->. }
  exists closed, final.
  split; [exact Heq|]. split; [exact Hclosed|]. split; [exact Hnone|].
  exact (Hempty Hnone).
Defined.
